(** * ufc-cal: the event-to-calendar pipeline of [src/index.ts]

  A shallow embedding of [createICS] and [formatEventForCalendar],
  with the properties of the calendar entries, the description text,
  the pay-per-view filter and the run's error handling. *)

From Stdlib Require Import ZArith NArith List String Ascii Lia Bool.
From Stdlib Require Import DecimalString.
From stdpp Require Import base option list gmap.

(** * JavaScript strings

  A JavaScript string is a sequence of UTF-16 code units.  The regular
  expression of the filter (no [u] flag), [length], truthiness, [join]
  and template literals all work on code units. *)

Definition code_unit := N.
Definition jsstring := list code_unit.

(** An ASCII literal of the source, as code units. *)
Definition lit (s : string) : jsstring :=
  (λ a, N_of_ascii a) <$> list_ascii_of_string s.

(** ["\n"] *)
Definition LF : jsstring := [10%N].

(** [Array.prototype.join(sep)] on an array of strings. *)
Fixpoint join (sep : jsstring) (xs : list jsstring) : jsstring :=
  match xs with
  | [] => []
  | [x] => x
  | x :: rest => x ++ sep ++ join sep rest
  end.

(** A string is truthy when it is not empty; an array's [length] is
  truthy when the array is not empty. *)
Definition truthy (s : jsstring) : bool :=
  match s with [] => false | _ => true end.

Definition has_length {A} (xs : list A) : bool :=
  match xs with [] => false | _ => true end.

(** [String.prototype.includes]: [p] occurs in [s] as a contiguous run. *)
Definition includes (s p : jsstring) : Prop :=
  ∃ pre post, s = pre ++ p ++ post.

Fixpoint starts_with (s p : jsstring) {struct p} : bool :=
  match p, s with
  | [], _ => true
  | c :: p', d :: s' => (c =? d)%N && starts_with s' p'
  | _ :: _, [] => false
  end.

Fixpoint includesb (s p : jsstring) : bool :=
  starts_with s p ||
  match s with
  | [] => false
  | _ :: s' => includesb s' p
  end.

(** * The regular expression [/UFC\s+\d+/]

  The fragment of the ECMAScript pattern grammar the source uses: an
  Alternative is a sequence of Terms, a Term is an Atom with an
  optional [+] quantifier, an Atom is a pattern character or one of
  the class escapes [\d] and [\s]. *)

Module RegExp.

Inductive CharacterClassEscape := class_d | class_s.

Inductive Atom :=
| PatternCharacter (c : code_unit)
| AtomEscape (e : CharacterClassEscape).

Inductive Quantifier := plus.

Definition Term : Type := Atom * option Quantifier.
Definition Alternative := list Term.

(** [\d] is [0-9]. *)
Definition is_digit (c : code_unit) : bool :=
  (48 <=? c)%N && (c <=? 57)%N.

(** [\s] is WhiteSpace or LineTerminator: TAB, VT, FF, ZWNBSP, the
    space separators (category Zs), LF, CR, LS and PS. *)
Definition is_white_space (c : code_unit) : bool :=
  (c =? 0x9)%N || (c =? 0xB)%N || (c =? 0xC)%N || (c =? 0xFEFF)%N ||
  (c =? 0x20)%N || (c =? 0xA0)%N || (c =? 0x1680)%N ||
  ((0x2000 <=? c)%N && (c <=? 0x200A)%N) ||
  (c =? 0x202F)%N || (c =? 0x205F)%N || (c =? 0x3000)%N ||
  (c =? 0xA)%N || (c =? 0xD)%N || (c =? 0x2028)%N || (c =? 0x2029)%N.

Definition atom_matches (a : Atom) (c : code_unit) : bool :=
  match a with
  | PatternCharacter d => (c =? d)%N
  | AtomEscape class_d => is_digit c
  | AtomEscape class_s => is_white_space c
  end.

(** The backtracking matcher, in continuation style as the language
    definition has it.  [k] is the continuation: it receives what is
    left of the input.  A greedy [+] first tries one more repetition
    and falls back to the continuation. *)
Fixpoint match_plus (p : code_unit → bool) (k : jsstring → bool)
    (input : jsstring) : bool :=
  match input with
  | [] => false
  | c :: rest => p c && (match_plus p k rest || k rest)
  end.

Fixpoint match_terms (ts : Alternative) (k : jsstring → bool)
    (input : jsstring) : bool :=
  match ts with
  | [] => k input
  | (a, None) :: ts' =>
      match input with
      | [] => false
      | c :: rest => atom_matches a c && match_terms ts' k rest
      end
  | (a, Some plus) :: ts' =>
      match_plus (atom_matches a) (match_terms ts' k) input
  end.

(** [RegExp.prototype.test] without the [g] and [y] flags: a match is
    tried at every start index, from 0 up to the length. *)
Fixpoint test (r : Alternative) (input : jsstring) : bool :=
  match_terms r (λ _, true) input ||
  match input with
  | [] => false
  | _ :: rest => test r rest
  end.

(** The words an Alternative matches. *)
Fixpoint lang (ts : Alternative) (w : jsstring) : Prop :=
  match ts with
  | [] => w = []
  | (a, None) :: ts' =>
      ∃ c w', w = c :: w' ∧ atom_matches a c = true ∧ lang ts' w'
  | (a, Some plus) :: ts' =>
      ∃ ws w', w = ws ++ w' ∧ ws ≠ [] ∧
               Forall (λ c, atom_matches a c = true) ws ∧ lang ts' w'
  end.

End RegExp.

(** [/UFC\s+\d+/] *)
Definition ppv_pattern : RegExp.Alternative :=
[ (RegExp.PatternCharacter 85%N, None);
  (RegExp.PatternCharacter 70%N, None);
  (RegExp.PatternCharacter 67%N, None);
  (RegExp.AtomEscape RegExp.class_s, Some RegExp.plus);
  (RegExp.AtomEscape RegExp.class_d, Some RegExp.plus) ].


(** * Numbers and dates

    A JavaScript number that the program computes is an integer or NaN:
    [None] is NaN. *)

Definition number := option Z.
Definition NaN : number := None.

(** The value of a digit in a radix, [None] when the code unit is not a
    digit of that radix. *)
Definition digit_value (R : Z) (c : code_unit) : option Z :=
  let v :=
    if (48 <=? c)%N && (c <=? 57)%N then Some (Z.of_N c - 48)%Z
    else if (97 <=? c)%N && (c <=? 122)%N then Some (Z.of_N c - 87)%Z
    else if (65 <=? c)%N && (c <=? 90)%N then Some (Z.of_N c - 55)%Z
    else None in
  match v with
  | Some d => if (d <? R)%Z then Some d else None
  | None => None
  end.

(** The value of the longest prefix of radix-[R] digits. *)
Fixpoint digits_value (R acc : Z) (s : jsstring) : Z :=
  match s with
  | [] => acc
  | c :: rest =>
      match digit_value R c with
      | Some d => digits_value R (acc * R + d)%Z rest
      | None => acc
      end
  end.

Definition leading_digit (R : Z) (s : jsstring) : bool :=
  match s with
  | [] => false
  | c :: _ => match digit_value R c with Some _ => true | None => false end
  end.

Fixpoint trim_start (s : jsstring) : jsstring :=
  match s with
  | [] => []
  | c :: rest => if RegExp.is_white_space c then trim_start rest else s
  end.

(** [parseInt(string)] with no radix: leading white space is skipped, a
    sign is read, a [0x] or [0X] prefix selects radix 16, and the longest
    prefix of digits is the value; no digit at all gives NaN.  The value
    here is the mathematical integer: the program only passes it to
    [new Date(_ * 1000)], where a value that a double cannot hold exactly
    is far outside the range of dates (see [TimeClip]). *)
Definition parseInt (s : jsstring) : number :=
  let str := trim_start s in
  let '(sign, str) :=
    match str with
    | 45%N :: rest => ((-1)%Z, rest)
    | 43%N :: rest => (1%Z, rest)
    | _ => (1%Z, str)
    end in
  let '(R, str) :=
    match str with
    | 48%N :: x :: rest =>
        if (x =? 120)%N || (x =? 88)%N then (16%Z, rest) else (10%Z, str)
    | _ => (10%Z, str)
    end in
  if leading_digit R str then Some (sign * digits_value R 0 str)%Z else NaN.

(** [x * 1000] and [x + 1] on numbers. *)
Definition times (k : Z) (x : number) : number := (λ n, n * k)%Z <$> x.
Definition plus1 (x : number) : number := (λ n, n + 1)%Z <$> x.

(** A Date object is its time value in milliseconds, NaN when invalid. *)
Definition Date := number.

(** [TimeClip]: a time value beyond 8.64e15 ms is NaN. *)
Definition TimeClip (t : number) : number :=
  match t with
  | Some t => if (Z.abs t <=? 8640000000000000)%Z then Some t else NaN
  | None => NaN
  end.

(** [new Date(value)] *)
Definition new_Date (value : number) : Date := TimeClip value.

(** [+date] *)
Definition valueOf (d : Date) : number := d.

Definition msPerDay : Z := 86400000.
Definition msPerHour : Z := 3600000.
Definition msPerMinute : Z := 60000.

(** Year, month (1 to 12) and day of the month of a day number counted
    from 1 January 1970, in the proleptic Gregorian calendar. *)
Definition civil_from_days (days : Z) : Z * Z * Z :=
  let z := (days + 719468)%Z in
  let era := (z / 146097)%Z in
  let doe := (z - era * 146097)%Z in
  let yoe := ((doe - doe / 1460 + doe / 36524 - doe / 146096) / 365)%Z in
  let doy := (doe - (365 * yoe + yoe / 4 - yoe / 100))%Z in
  let mp := ((5 * doy + 2) / 153)%Z in
  let d := (doy - (153 * mp + 2) / 5 + 1)%Z in
  let m := (if (mp <? 10)%Z then mp + 3 else mp - 9)%Z in
  let y := (yoe + era * 400 + (if (m <=? 2)%Z then 1 else 0))%Z in
  (y, m, d).

Definition Day (t : Z) : Z := (t / msPerDay)%Z.
Definition YearFromTime (t : Z) : Z := (civil_from_days (Day t)).1.1.
Definition MonthFromTime (t : Z) : Z := ((civil_from_days (Day t)).1.2 - 1)%Z.
Definition DateFromTime (t : Z) : Z := (civil_from_days (Day t)).2.
Definition HourFromTime (t : Z) : Z := ((t / msPerHour) mod 24)%Z.
Definition MinFromTime (t : Z) : Z := ((t / msPerMinute) mod 60)%Z.

(** * Records of the program and of the [ics] library *)

(** A [URL] object; [href] is its serialization, which is also what a
    template literal prints for it. *)
Record URL := { href : jsstring }.

Module UFCEvent.
Record t := mk {
  name : jsstring;
  date : jsstring;
  location : jsstring;
  url : URL;
  fightCard : list jsstring;
  mainCard : list jsstring;
  prelims : list jsstring;
  earlyPrelims : list jsstring;
  prelimsTime : option jsstring;
  earlyPrelimsTime : option jsstring;
}.
End UFCEvent.
Abbreviation UFCEvent := UFCEvent.t.

(** The duration objects of [ics]: every key is optional. *)
Module DurationObject.
Record t := mk {
  weeks : option Z;
  days : option Z;
  hours : option Z;
  minutes : option Z;
  seconds : option Z;
  before : option bool;
}.
End DurationObject.
Abbreviation DurationObject := DurationObject.t.

Module Alarm.
Record t := mk {
  action : jsstring;
  description : jsstring;
  trigger : DurationObject;
}.
End Alarm.
Abbreviation Alarm := Alarm.t.

Definition DateArray := list number.

Module EventAttributes.
Record t := mk {
  start : DateArray;
  duration : DurationObject;
  title : jsstring;
  description : jsstring;
  location : jsstring;
  uid : jsstring;
  calName : jsstring;
  alarms : list Alarm;
}.
End EventAttributes.
Abbreviation EventAttributes := EventAttributes.t.

(** A thrown error. *)
Record JsError := { err_name : jsstring; err_message : jsstring }.

Definition Error (message : jsstring) : JsError :=
  {| err_name := lit "Error"; err_message := message |}.

(** * The process: clock, working directory, files, exit code, output

    [clock] gives the reading of the wall clock at each [new Date()],
    [ticks] counts the readings so far.  [files] maps a path to the text
    written there.  [trace] lists the calls to the outside in order. *)

Inductive Action :=
| ConsoleLog (message : jsstring)
| ConsoleError (message : jsstring) (error : JsError)
| CallGetAllDetailedEvents
| CallCreateEvents (entries : list EventAttributes)
| WriteFile (path data : jsstring).

Record World := {
  clock : nat → Z;
  ticks : nat;
  cwd : jsstring;
  files : gmap jsstring jsstring;
  exitCode : option Z;
  trace : list Action;
}.

Definition tick (w : World) : World :=
  {| clock := clock w; ticks := S (ticks w); cwd := cwd w;
     files := files w; exitCode := exitCode w; trace := trace w |}.

Definition emit (a : Action) (w : World) : World :=
  {| clock := clock w; ticks := ticks w; cwd := cwd w;
     files := files w; exitCode := exitCode w; trace := trace w ++ [a] |}.

Definition store (path data : jsstring) (w : World) : World :=
  {| clock := clock w; ticks := ticks w; cwd := cwd w;
     files := <[path := data]> (files w); exitCode := exitCode w;
     trace := trace w |}.

Definition exit_with (code : Z) (w : World) : World :=
  {| clock := clock w; ticks := ticks w; cwd := cwd w;
     files := files w; exitCode := Some code; trace := trace w |}.

(** A statement completes normally or throws. *)
Inductive Completion (A : Type) :=
| Normal (a : A)
| Throw (e : JsError).
Arguments Normal {A} a.
Arguments Throw {A} e.

Definition M (A : Type) : Type := World → Completion A * World.

#[global] Instance M_ret : MRet M := λ A a w, (Normal a, w).

#[global] Instance M_bind : MBind M := λ A B f m w,
  match m w with
  | (Normal a, w') => f a w'
  | (Throw e, w') => (Throw e, w')
  end.

Definition throw {A} (e : JsError) : M A := λ w, (Throw e, w).

(** [try { body } catch (error) { handler }] *)
Definition try_catch {A} (body : M A) (handler : JsError → M A) : M A :=
  λ w,
    match body w with
    | (Normal a, w') => (Normal a, w')
    | (Throw e, w') => handler e w'
    end.

Definition act (a : Action) : M unit := λ w, (Normal (), emit a w).

(** The collaborators of the program that are not in [src/index.ts]:
    the host's time zone and formatting, the scraper, the [ics]
    serializer, [path.join] and the file system's refusals. *)
Class Host := {
  (** the offset of local time from UTC, in ms, at a time value *)
  LocalTZA : Z → Z;
  (** the text of [`${ms / 3600000}`], where [ms] is a positive
      difference of two time values *)
  hours_toString : Z → jsstring;
  (** [toLocaleString("en-US", {month: "short", ..., timeZone:
      "America/Toronto", timeZoneName: "short"})] of a time value *)
  toLocaleString : Z → jsstring;
  (** what [await getAllDetailedEvents()] gives in this run; [None] is
      an absent list *)
  getAllDetailedEvents : Completion (option (list UFCEvent));
  (** [createEvents] of [ics]: an error or the serialized document *)
  createEvents : list EventAttributes → JsError + jsstring;
  path_join : jsstring → jsstring → jsstring;
  (** the error [fs.writeFileSync] throws for a path, if any *)
  write_error : jsstring → option JsError;
}.

(** ** Library calls *)

Definition console_log (message : jsstring) : M unit :=
  act (ConsoleLog message).

Definition console_error (message : jsstring) (error : JsError) : M unit :=
  act (ConsoleError message error).

(** [new Date()]: one reading of the clock. *)
Definition new_Date_now : M Date :=
  λ w, (Normal (new_Date (Some (clock w (ticks w)))), tick w).

Definition process_cwd : M jsstring := λ w, (Normal (cwd w), w).

Definition set_exitCode (code : Z) : M unit :=
  λ w, (Normal (), exit_with code w).

Definition await_getAllDetailedEvents `{Host}
    : M (option (list UFCEvent)) :=
  λ w, (getAllDetailedEvents, emit CallGetAllDetailedEvents w).

Definition call_createEvents `{Host} (entries : list EventAttributes)
    : M (JsError + jsstring) :=
  λ w, (Normal (createEvents entries), emit (CallCreateEvents entries) w).

(** [fs.writeFileSync(path, data, "utf8")]: the whole file is replaced. *)
Definition writeFileSync `{Host} (path data : jsstring) : M unit :=
  λ w,
    match write_error path with
    | Some e => (Throw e, w)
    | None => (Normal (), emit (WriteFile path data) (store path data w))
    end.

(** The local-time getters of a Date; NaN on an invalid date. *)
Definition LocalTime `{Host} (t : Z) : Z := (t + LocalTZA t)%Z.
Definition getFullYear `{Host} (d : Date) : number :=
  (λ t, YearFromTime (LocalTime t)) <$> d.
Definition getMonth `{Host} (d : Date) : number :=
  (λ t, MonthFromTime (LocalTime t)) <$> d.
Definition getDate `{Host} (d : Date) : number :=
  (λ t, DateFromTime (LocalTime t)) <$> d.
Definition getHours `{Host} (d : Date) : number :=
  (λ t, HourFromTime (LocalTime t)) <$> d.
Definition getMinutes `{Host} (d : Date) : number :=
  (λ t, MinFromTime (LocalTime t)) <$> d.

(** [date.toLocaleString(...)] of the reading of the clock, which is
    never an invalid date. *)
Definition Date_toLocaleString `{Host} (d : Date) : jsstring :=
  match d with
  | Some t => toLocaleString t
  | None => lit "Invalid Date"
  end.

(** [`${n}`] for an array length. *)
Definition length_toString (n : nat) : jsstring :=
  lit (NilZero.string_of_uint (Nat.to_uint n)).

(** [Buffer.byteLength(s)]: the length of the UTF-8 encoding.  A
    surrogate pair takes four bytes, a lone surrogate is replaced by
    U+FFFD and takes three. *)
Fixpoint byteLength (s : jsstring) : nat :=
  match s with
  | [] => 0
  | c :: rest =>
      if (c <? 0x80)%N then S (byteLength rest)
      else if (c <? 0x800)%N then 2 + byteLength rest
      else if (0xD800 <=? c)%N && (c <=? 0xDBFF)%N then
        match rest with
        | d :: rest' =>
            if (0xDC00 <=? d)%N && (d <=? 0xDFFF)%N
            then 4 + byteLength rest'
            else 3 + byteLength rest
        | [] => 3
        end
      else 3 + byteLength rest
  end.

(** * [formatEventForCalendar] *)

(** The separator line under a header. *)
Definition dashes : jsstring := lit "--------------------".

(** Lines 77-81, and again lines 86-92 with [earlyPrelimsTime]: what is
    appended to the header for the start time [time] of a section.
    [hoursAgo] is [(+date - +prelimsTime) / 3600000]; both time values
    are multiples of 1000 within the range of dates, so the difference
    is exact and [hoursAgo > 0] holds exactly when the difference [ms]
    is positive.  A NaN on either side makes the comparison false. *)
Definition hoursAgo_suffix `{Host} (date : Date) (time : option jsstring)
    : jsstring :=
  match time with
  | Some s =>
      if truthy s then
        let prelimsTime := new_Date (times 1000 (parseInt s)) in
        match valueOf date, valueOf prelimsTime with
        | Some d, Some p =>
            let ms := (d - p)%Z in
            if (ms >? 0)%Z
            then lit " (" ++ hours_toString ms ++ lit " hrs before Main)"
            else []
        | _, _ => []
        end
      else []
  | None => []
  end.

Definition formatEventForCalendar `{Host}
    (event : UFCEvent) (calName : jsstring) : M EventAttributes :=
  let date := new_Date (times 1000 (parseInt (UFCEvent.date event))) in
  let start : DateArray :=
    [ getFullYear date;
      plus1 (getMonth date);
      getDate date;
      getHours date;
      getMinutes date ] in
  let duration :=
    {| DurationObject.weeks := None; DurationObject.days := None;
       DurationObject.hours := Some 3%Z; DurationObject.minutes := None;
       DurationObject.seconds := None; DurationObject.before := None |} in
  let title := UFCEvent.name event in
  let description : jsstring := [] in
  let description :=
    if has_length (UFCEvent.fightCard event)
    then description ++ join LF (UFCEvent.fightCard event) ++ LF
    else description in
  let description :=
    if has_length (UFCEvent.mainCard event)
    then description ++ lit "Main Card" ++ LF ++ dashes ++ LF
           ++ join LF (UFCEvent.mainCard event) ++ LF
    else description in
  let description :=
    if has_length (UFCEvent.prelims event) then
      let description := description ++ LF ++ lit "Prelims" in
      let description :=
        description ++ hoursAgo_suffix date (UFCEvent.prelimsTime event) in
      description ++ LF ++ dashes ++ LF
        ++ join LF (UFCEvent.prelims event) ++ LF
    else description in
  let description :=
    if has_length (UFCEvent.earlyPrelims event) then
      let description := description ++ LF ++ lit "Early Prelims" in
      let description :=
        description
          ++ hoursAgo_suffix date (UFCEvent.earlyPrelimsTime event) in
      description ++ LF ++ dashes ++ LF
        ++ join LF (UFCEvent.earlyPrelims event) ++ LF
    else description in
  let description := description ++ LF ++ href (UFCEvent.url event) ++ LF in
  now ← new_Date_now;
  let timestamp := Date_toLocaleString now in
  let description :=
    description ++ LF ++ lit "Accurate as of " ++ timestamp in
  mret
    {| EventAttributes.start := start;
       EventAttributes.duration := duration;
       EventAttributes.title := title;
       EventAttributes.description := description;
       EventAttributes.location := UFCEvent.location event;
       EventAttributes.uid := href (UFCEvent.url event);
       EventAttributes.calName := calName;
       EventAttributes.alarms :=
         [ {| Alarm.action := lit "display";
              Alarm.description := title ++ lit " starting soon!";
              Alarm.trigger :=
                {| DurationObject.weeks := None;
                   DurationObject.days := None;
                   DurationObject.hours := None;
                   DurationObject.minutes := Some 30%Z;
                   DurationObject.seconds := None;
                   DurationObject.before := Some true |} |} ] |}.

(** * [createICS] *)

(** The filter of line 32. *)
Definition isPayPerView (e : UFCEvent) : bool :=
  RegExp.test ppv_pattern (UFCEvent.name e).

Definition ppvEvents (events : list UFCEvent) : list UFCEvent :=
  List.filter isPayPerView events.

(** The symbols of the log lines, as surrogate pairs where needed. *)
Definition green_circle : jsstring := [0xD83D; 0xDFE2]%N.
Definition check_mark : jsstring := [0x2705]%N.
Definition memo : jsstring := [0xD83D; 0xDCDD]%N.
Definition bullseye : jsstring := [0xD83C; 0xDFAF]%N.
Definition cross_mark : jsstring := [0x274C]%N.

Definition createICS `{Host} : M unit :=
  try_catch
    (console_log (green_circle ++ lit " Fetching UFC events...");;
     events ← await_getAllDetailedEvents;
     match events with
     | Some ((_ :: _) as events) =>
         console_log (check_mark ++ lit " Retrieved "
                        ++ length_toString (length events)
                        ++ lit " events.");;
         formattedEvents ←
           mapM (λ event, formatEventForCalendar event (lit "UFC")) events;
         console_log (memo ++ lit " Generating UFC.ics...");;
         all ← call_createEvents formattedEvents;
         match all with
         | inl allErr => throw allErr
         | inr allVal =>
             outDir ← process_cwd;
             let ufcPath := path_join outDir (lit "UFC.ics") in
             writeFileSync ufcPath allVal;;
             console_log (check_mark ++ lit " Wrote " ++ ufcPath ++ lit " ("
                            ++ length_toString (byteLength allVal)
                            ++ lit " bytes)");;
             let ppvEvents := ppvEvents events in
             formattedPPV ←
               mapM (λ e, formatEventForCalendar e (lit "UFC-PPV")) ppvEvents;
             console_log (memo ++ lit " Generating UFC-PPV.ics ("
                            ++ length_toString (length formattedPPV)
                            ++ lit " events)...");;
             ppv ← call_createEvents formattedPPV;
             match ppv with
             | inl ppvErr => throw ppvErr
             | inr ppvVal =>
                 let ppvPath := path_join outDir (lit "UFC-PPV.ics") in
                 writeFileSync ppvPath ppvVal;;
                 console_log (check_mark ++ lit " Wrote " ++ ppvPath
                                ++ lit " ("
                                ++ length_toString (byteLength ppvVal)
                                ++ lit " bytes)");;
                 console_log (bullseye ++ lit " ICS generation complete!")
             end
         end
     | _ => throw (Error (lit "No events retrieved."))
     end)
    (λ error,
       console_error (cross_mark ++ lit " Error generating ICS:") error;;
       set_exitCode 1).

(** * Sample data for the examples *)

Definition decimal (z : Z) : jsstring :=
  lit (NilZero.string_of_int (Z.to_int z)).

(** A host five hours behind UTC.  Whole hours print as integers, as
    JavaScript prints them; other values are printed here with one
    decimal, which is exact for half hours. *)
Definition demo_hours_toString (ms : Z) : jsstring :=
  let whole := (ms / 3600000)%Z in
  let tenth := ((ms mod 3600000) / 360000)%Z in
  if (ms mod 3600000 =? 0)%Z then decimal whole
  else decimal whole ++ lit "." ++ decimal tenth.

Definition demo_host_with
    (acquired : Completion (option (list UFCEvent)))
    (serializer : list EventAttributes → JsError + jsstring) : Host :=
  {| LocalTZA := λ _, (-18000000)%Z;
     hours_toString := demo_hours_toString;
     toLocaleString := λ t, lit "t=" ++ decimal t;
     getAllDetailedEvents := acquired;
     createEvents := serializer;
     path_join := λ dir file, dir ++ lit "/" ++ file;
     write_error := λ _, None |}.

Definition demo_serializer (entries : list EventAttributes)
    : JsError + jsstring :=
  inr (lit "BEGIN:VCALENDAR" ++ LF
         ++ join LF (EventAttributes.title <$> entries) ++ LF
         ++ lit "END:VCALENDAR").

Definition failing_serializer (entries : list EventAttributes)
    : JsError + jsstring :=
  inl (Error (lit "start is a required field")).

Definition demo_world : World :=
  {| clock := λ n, (1699990000000 + 1000 * Z.of_nat n)%Z;
     ticks := 0;
     cwd := lit "/work";
     files := ∅;
     exitCode := None;
     trace := [] |}.

Definition later_world : World :=
  {| clock := λ n, (1699999000000 + 1000 * Z.of_nat n)%Z;
     ticks := 7;
     cwd := lit "/work";
     files := ∅;
     exitCode := None;
     trace := [] |}.

(** The event of the end-to-end example, named as a numbered event. *)
Definition ufc300 : UFCEvent :=
  {| UFCEvent.name := lit "UFC 300";
     UFCEvent.date := lit "1700000000";
     UFCEvent.location := lit "Las Vegas";
     UFCEvent.url := {| href := lit "https://example.com/e1" |};
     UFCEvent.fightCard := [lit "A vs B"];
     UFCEvent.mainCard := [];
     UFCEvent.prelims := [];
     UFCEvent.earlyPrelims := [];
     UFCEvent.prelimsTime := None;
     UFCEvent.earlyPrelimsTime := None |}.

Definition fight_night : UFCEvent :=
  {| UFCEvent.name := lit "UFC Fight Night: X vs Y";
     UFCEvent.date := lit "1700600000";
     UFCEvent.location := lit "Toronto";
     UFCEvent.url := {| href := lit "https://example.com/e2" |};
     UFCEvent.fightCard := [lit "X vs Y"; lit "P vs Q"];
     UFCEvent.mainCard := [lit "X vs Y"];
     UFCEvent.prelims := [lit "P vs Q"];
     UFCEvent.earlyPrelims := [lit "R vs S"];
     UFCEvent.prelimsTime := Some (lit "1700592800");
     UFCEvent.earlyPrelimsTime := Some (lit "1700587400") |}.

Definition demo_host : Host :=
  demo_host_with (Normal (Some [ufc300; fight_night])) demo_serializer.

(** * Notions the properties are stated with *)

(** A name that holds [UFC], then white space, then digits. *)
Definition ppv_shaped (name : jsstring) : Prop :=
  ∃ pre ws ds post,
    name = pre ++ lit "UFC" ++ ws ++ ds ++ post ∧
    ws ≠ [] ∧ Forall (λ c, RegExp.is_white_space c = true) ws ∧
    ds ≠ [] ∧ Forall (λ c, RegExp.is_digit c = true) ds.

(** The text that closes a header suffix. *)
Definition hrs_before_Main : jsstring := lit " hrs before Main)".

(** Epoch seconds whose time value is a valid date. *)
Definition seconds_in_range (n : Z) : Prop := (Z.abs n <= 8640000000000)%Z.

(** The section's start time [time] is present, it and [date] parse to
    seconds within the range of dates, the section starts before the
    main card, and [ms] is the difference in milliseconds. *)
Definition starts_before_by (date : jsstring) (time : option jsstring)
    (ms : Z) : Prop :=
  ∃ s p d,
    time = Some s ∧ parseInt s = Some p ∧ parseInt date = Some d ∧
    seconds_in_range p ∧ seconds_in_range d ∧ (p < d)%Z ∧
    ms = ((d - p) * 1000)%Z.

Definition starts_before (date : jsstring) (time : option jsstring) : Prop :=
  ∃ ms, starts_before_by date time ms.

(** The timestamp text of the [i]-th next reading of the clock. *)
Definition stamp `{Host} (w : World) (i : nat) : jsstring :=
  Date_toLocaleString (new_Date (Some (clock w (i + ticks w)))).

(** The world after [n] readings of the clock. *)
Definition after (n : nat) (w : World) : World := Nat.iter n tick w.

(** Lines, each closed by a newline. *)
Definition unlines (ls : list jsstring) : jsstring :=
  flat_map (λ l, l ++ LF) ls.

(** The lines of a section with a header: a blank line, the header with
    its suffix, the separator and the entries; nothing for an empty
    section. *)
Definition timed_section_lines `{Host} (header : jsstring) (date : Date)
    (time : option jsstring) (cards : list jsstring) : list jsstring :=
  if has_length cards
  then [[]; header ++ hoursAgo_suffix date time; dashes] ++ cards
  else [].

(** The description line by line, up to the blank line before the
    footer. *)
Definition description_lines `{Host} (e : UFCEvent) : list jsstring :=
  let date := new_Date (times 1000 (parseInt (UFCEvent.date e))) in
  UFCEvent.fightCard e
  ++ (if has_length (UFCEvent.mainCard e)
      then [lit "Main Card"; dashes] ++ UFCEvent.mainCard e else [])
  ++ timed_section_lines (lit "Prelims") date
       (UFCEvent.prelimsTime e) (UFCEvent.prelims e)
  ++ timed_section_lines (lit "Early Prelims") date
       (UFCEvent.earlyPrelimsTime e) (UFCEvent.earlyPrelims e)
  ++ [[]; href (UFCEvent.url e); []].

(** The entries of the full feed, [formattedEvents] of line 19, when the
    mapping starts in [w]. *)
Definition formattedEvents `{Host} (events : list UFCEvent) (w : World)
    : list EventAttributes :=
  match mapM (λ event, formatEventForCalendar event (lit "UFC")) events w with
  | (Normal entries, _) => entries
  | (Throw _, _) => []
  end.

(** The sentence about the suffix of the [Prelims] header, read on the
    numbers that [parseInt] gives: a start time that is present and less
    than [date] puts the text in the description, and one that is
    absent, equal or greater leaves the description without it. *)
Definition suffix_follows_prelimsTime `{Host} (e : UFCEvent)
    (calName : jsstring) (w : World) : Prop :=
  ∀ a w', formatEventForCalendar e calName w = (Normal a, w') →
    ((∃ s p d, UFCEvent.prelimsTime e = Some s ∧ parseInt s = Some p ∧
               parseInt (UFCEvent.date e) = Some d ∧ (p < d)%Z) →
     includes (EventAttributes.description a) hrs_before_Main) ∧
    ((UFCEvent.prelimsTime e = None ∨
      ∃ s p d, UFCEvent.prelimsTime e = Some s ∧ parseInt s = Some p ∧
               parseInt (UFCEvent.date e) = Some d ∧ (d <= p)%Z) →
     ¬ includes (EventAttributes.description a) hrs_before_Main).

(** An event with a start time for the prelims but no prelims listed. *)
Definition no_prelims_listed : UFCEvent :=
  {| UFCEvent.name := lit "UFC 301";
     UFCEvent.date := lit "1700000000";
     UFCEvent.location := lit "Rio de Janeiro";
     UFCEvent.url := {| href := lit "https://example.com/e3" |};
     UFCEvent.fightCard := [lit "A vs B"];
     UFCEvent.mainCard := [];
     UFCEvent.prelims := [];
     UFCEvent.earlyPrelims := [];
     UFCEvent.prelimsTime := Some (lit "1699992800");
     UFCEvent.earlyPrelimsTime := None |}.

(** An event with no start time for the prelims and one for the early
    prelims. *)
Definition early_time_only : UFCEvent :=
  {| UFCEvent.name := lit "UFC 302";
     UFCEvent.date := lit "1700000000";
     UFCEvent.location := lit "Newark";
     UFCEvent.url := {| href := lit "https://example.com/e4" |};
     UFCEvent.fightCard := [];
     UFCEvent.mainCard := [];
     UFCEvent.prelims := [lit "P vs Q"];
     UFCEvent.earlyPrelims := [lit "R vs S"];
     UFCEvent.prelimsTime := None;
     UFCEvent.earlyPrelimsTime := Some (lit "1699992800") |}.

(** An event whose date is a number beyond the range of dates. *)
Definition date_out_of_range : UFCEvent :=
  {| UFCEvent.name := lit "UFC 303";
     UFCEvent.date := lit "99999999999999";
     UFCEvent.location := lit "Las Vegas";
     UFCEvent.url := {| href := lit "https://example.com/e5" |};
     UFCEvent.fightCard := [];
     UFCEvent.mainCard := [];
     UFCEvent.prelims := [lit "P vs Q"];
     UFCEvent.earlyPrelims := [];
     UFCEvent.prelimsTime := Some (lit "1700000000");
     UFCEvent.earlyPrelimsTime := None |}.

(** The entry of a completion, for the examples. *)
Definition returned {A} (r : Completion A * World) : option A :=
  match r with
  | (Normal a, _) => Some a
  | (Throw _, _) => None
  end.

(** * More notions for the run *)

(** The entries of the PPV feed, [formattedPPV] of line 33, when the
    mapping starts in [w]. *)
Definition formattedPPV `{Host} (events : list UFCEvent) (w : World)
    : list EventAttributes :=
  match mapM (λ e, formatEventForCalendar e (lit "UFC-PPV"))
          (ppvEvents events) w with
  | (Normal entries, _) => entries
  | (Throw _, _) => []
  end.

(** The two paths of lines 27 and 40. *)
Definition ufcPath `{Host} (w : World) : jsstring :=
  path_join (cwd w) (lit "UFC.ics").

Definition ppvPath `{Host} (w : World) : jsstring :=
  path_join (cwd w) (lit "UFC-PPV.ics").

(** The lines the run prints, in the order of the source. *)
Definition log_fetching : Action :=
  ConsoleLog (green_circle ++ lit " Fetching UFC events...").

Definition log_retrieved (n : nat) : Action :=
  ConsoleLog (check_mark ++ lit " Retrieved " ++ length_toString n
                ++ lit " events.").

Definition log_generating : Action :=
  ConsoleLog (memo ++ lit " Generating UFC.ics...").

Definition log_wrote (path data : jsstring) : Action :=
  ConsoleLog (check_mark ++ lit " Wrote " ++ path ++ lit " ("
                ++ length_toString (byteLength data) ++ lit " bytes)").

Definition log_generating_ppv (n : nat) : Action :=
  ConsoleLog (memo ++ lit " Generating UFC-PPV.ics ("
                ++ length_toString n ++ lit " events)...").

Definition log_complete : Action :=
  ConsoleLog (bullseye ++ lit " ICS generation complete!").

Definition log_failure (error : JsError) : Action :=
  ConsoleError (cross_mark ++ lit " Error generating ICS:") error.

(** What the run has done up to the first write, when the scraper gave
    [events] and the serializer accepted the full feed. *)
Definition before_first_write `{Host} (events : list UFCEvent) (w : World)
    : list Action :=
  [ log_fetching; CallGetAllDetailedEvents;
    log_retrieved (length events); log_generating;
    CallCreateEvents (formattedEvents events w) ].

(** What the run does from the first write to the second serialization,
    when the first write succeeds. *)
Definition first_write_to_second_feed `{Host} (events : list UFCEvent)
    (allVal : jsstring) (w : World) : list Action :=
  [ WriteFile (ufcPath w) allVal; log_wrote (ufcPath w) allVal;
    log_generating_ppv (length (ppvEvents events));
    CallCreateEvents (formattedPPV events (after (length events) w)) ].

(** The run from [w] ended in [w'] with this exit code and these files,
    having done [acts]. *)
Definition ends_as (w w' : World) (code : option Z)
    (fs : gmap jsstring jsstring) (acts : list Action) : Prop :=
  exitCode w' = code ∧ files w' = fs ∧ trace w' = trace w ++ acts.

(** The five ways a run can end: the scraper gave no events (it threw,
    or gave nothing or an empty list); the full feed was not written;
    only the full feed was written; both feeds were written. *)
Definition run_outcome `{Host} (w w' : World) : Prop :=
  (∃ err,
     (getAllDetailedEvents = Throw err ∨
      (err = Error (lit "No events retrieved.") ∧
       (getAllDetailedEvents = Normal None ∨
        getAllDetailedEvents = Normal (Some [])))) ∧
     ends_as w w' (Some 1%Z) (files w)
       [log_fetching; CallGetAllDetailedEvents; log_failure err]) ∨
  (∃ events err,
     getAllDetailedEvents = Normal (Some events) ∧ events ≠ [] ∧
     (createEvents (formattedEvents events w) = inl err ∨
      write_error (ufcPath w) = Some err) ∧
     ends_as w w' (Some 1%Z) (files w)
       (before_first_write events w ++ [log_failure err])) ∨
  (∃ events allVal err,
     getAllDetailedEvents = Normal (Some events) ∧ events ≠ [] ∧
     createEvents (formattedEvents events w) = inr allVal ∧
     (createEvents (formattedPPV events (after (length events) w)) = inl err ∨
      write_error (ppvPath w) = Some err) ∧
     ends_as w w' (Some 1%Z) (<[ufcPath w := allVal]> (files w))
       (before_first_write events w
          ++ first_write_to_second_feed events allVal w
          ++ [log_failure err])) ∨
  (∃ events allVal ppvVal,
     getAllDetailedEvents = Normal (Some events) ∧ events ≠ [] ∧
     createEvents (formattedEvents events w) = inr allVal ∧
     createEvents (formattedPPV events (after (length events) w))
     = inr ppvVal ∧
     ends_as w w' (exitCode w)
       (<[ppvPath w := ppvVal]> (<[ufcPath w := allVal]> (files w)))
       (before_first_write events w
          ++ first_write_to_second_feed events allVal w
          ++ [ WriteFile (ppvPath w) ppvVal; log_wrote (ppvPath w) ppvVal;
               log_complete ])).

(** The event without a start time for the prelims, and without one for
    the early prelims. *)
Definition without_prelimsTime (e : UFCEvent) : UFCEvent :=
  {| UFCEvent.name := UFCEvent.name e;
     UFCEvent.date := UFCEvent.date e;
     UFCEvent.location := UFCEvent.location e;
     UFCEvent.url := UFCEvent.url e;
     UFCEvent.fightCard := UFCEvent.fightCard e;
     UFCEvent.mainCard := UFCEvent.mainCard e;
     UFCEvent.prelims := UFCEvent.prelims e;
     UFCEvent.earlyPrelims := UFCEvent.earlyPrelims e;
     UFCEvent.prelimsTime := None;
     UFCEvent.earlyPrelimsTime := UFCEvent.earlyPrelimsTime e |}.

Definition without_earlyPrelimsTime (e : UFCEvent) : UFCEvent :=
  {| UFCEvent.name := UFCEvent.name e;
     UFCEvent.date := UFCEvent.date e;
     UFCEvent.location := UFCEvent.location e;
     UFCEvent.url := UFCEvent.url e;
     UFCEvent.fightCard := UFCEvent.fightCard e;
     UFCEvent.mainCard := UFCEvent.mainCard e;
     UFCEvent.prelims := UFCEvent.prelims e;
     UFCEvent.earlyPrelims := UFCEvent.earlyPrelims e;
     UFCEvent.prelimsTime := UFCEvent.prelimsTime e;
     UFCEvent.earlyPrelimsTime := None |}.

(** The day number, counted from 1 January 1970, of a date of the
    proleptic Gregorian calendar: the inverse of [civil_from_days]. *)
Definition days_from_civil (y m d : Z) : Z :=
  let y' := (if (m <=? 2)%Z then y - 1 else y)%Z in
  let era := (y' / 400)%Z in
  let yoe := (y' - era * 400)%Z in
  let mp := (if (m <=? 2)%Z then m + 9 else m - 3)%Z in
  let doy := ((153 * mp + 2) / 5 + d - 1)%Z in
  let doe := (yoe * 365 + yoe / 4 - yoe / 100 + doy)%Z in
  (era * 146097 + doe - 719468)%Z.

(** The time value of the start of a minute of a civil day. *)
Definition minute_start (y m d h mi : Z) : Z :=
  (days_from_civil y m d * msPerDay + h * msPerHour + mi * msPerMinute)%Z.

(** More hosts for the examples: one whose file system refuses the
    paths that [refused] names, and a serializer that accepts the full
    feed and refuses the PPV feed. *)
Definition demo_host_refusing
    (acquired : Completion (option (list UFCEvent)))
    (serializer : list EventAttributes → JsError + jsstring)
    (refused : jsstring → option JsError) : Host :=
  {| LocalTZA := λ _, (-18000000)%Z;
     hours_toString := demo_hours_toString;
     toLocaleString := λ t, lit "t=" ++ decimal t;
     getAllDetailedEvents := acquired;
     createEvents := serializer;
     path_join := λ dir file, dir ++ lit "/" ++ file;
     write_error := refused |}.

Definition full_feed_only_serializer (entries : list EventAttributes)
    : JsError + jsstring :=
  match entries with
  | a :: _ =>
      if bool_decide (EventAttributes.calName a = lit "UFC")
      then demo_serializer entries
      else inl (Error (lit "title is a required field"))
  | [] => inl (Error (lit "no entries"))
  end.

(** An event with early prelims listed, three hours before the main
    card. *)
Definition early_prelims_listed : UFCEvent :=
  {| UFCEvent.name := lit "UFC 305";
     UFCEvent.date := lit "1700000000";
     UFCEvent.location := lit "Perth";
     UFCEvent.url := {| href := lit "https://example.com/e7" |};
     UFCEvent.fightCard := [];
     UFCEvent.mainCard := [];
     UFCEvent.prelims := [];
     UFCEvent.earlyPrelims := [lit "R vs S"];
     UFCEvent.prelimsTime := None;
     UFCEvent.earlyPrelimsTime := Some (lit "1699989200") |}.

(** An event whose date is not a number. *)
Definition date_to_be_announced : UFCEvent :=
  {| UFCEvent.name := lit "UFC 306";
     UFCEvent.date := lit "TBD";
     UFCEvent.location := lit "Las Vegas";
     UFCEvent.url := {| href := lit "https://example.com/e8" |};
     UFCEvent.fightCard := [];
     UFCEvent.mainCard := [];
     UFCEvent.prelims := [lit "P vs Q"];
     UFCEvent.earlyPrelims := [];
     UFCEvent.prelimsTime := Some (lit "1699989200");
     UFCEvent.earlyPrelimsTime := None |}.

(** A host like [demo_host] whose local time is UTC. *)
Definition utc_host : Host :=
  {| LocalTZA := λ _, 0%Z;
     hours_toString := demo_hours_toString;
     toLocaleString := λ t, lit "t=" ++ decimal t;
     getAllDetailedEvents := Normal (Some [ufc300; fight_night]);
     createEvents := demo_serializer;
     path_join := λ dir file, dir ++ lit "/" ++ file;
     write_error := λ _, None |}.

(** The sentence about two runs on the same list, one on the host [H1]
    from the world [w1] and one on the host [H2] from the world [w2]:
    entry by entry, the same uid, title, start, duration and
    location. *)
Definition reruns_agree (H1 H2 : Host) (events : list UFCEvent)
    (calName : jsstring) (w1 w2 : World) : Prop :=
  ∀ es1 es2 w1' w2',
    mapM (λ e, @formatEventForCalendar H1 e calName) events w1
    = (Normal es1, w1') →
    mapM (λ e, @formatEventForCalendar H2 e calName) events w2
    = (Normal es2, w2') →
    Forall2
      (λ a b,
         EventAttributes.uid a = EventAttributes.uid b ∧
         EventAttributes.title a = EventAttributes.title b ∧
         EventAttributes.start a = EventAttributes.start b ∧
         EventAttributes.duration a = EventAttributes.duration b ∧
         EventAttributes.location a = EventAttributes.location b)
      es1 es2.

(* ================================================================= *)
(** * Properties *)

(** ** Substrings *)

Lemma starts_with_spec (s p : jsstring) :
  starts_with s p = true ↔ ∃ post, s = p ++ post.
Proof.
  revert s; induction p as [|c p IH]; intros s; simpl.
  - split; [intros _; by exists s | done].
  - destruct s as [|d s].
    + split; [done | intros [post Hpost]; discriminate].
    + rewrite andb_true_iff, N.eqb_eq, IH. split.
      * intros [-> [post ->]]. by exists post.
      * intros [post Hpost]. injection Hpost as -> ->. eauto.
Qed.

Lemma includesb_spec (s p : jsstring) :
  includesb s p = true ↔ includes s p.
Proof.
  unfold includes. induction s as [|d s IH]; simpl.
  - rewrite orb_false_r, starts_with_spec. split.
    + intros [post ->]. by exists [], post.
    + intros (pre & post & Heq). destruct pre; [|discriminate].
      by exists post.
  - rewrite orb_true_iff, starts_with_spec, IH. split.
    + intros [[post ->] | (pre & post & ->)].
      * by exists [], post.
      * by exists (d :: pre), post.
    + intros (pre & post & Heq). destruct pre as [|d' pre].
      * left. by exists post.
      * right. injection Heq as -> ->. by exists pre, post.
Qed.

(** ** The matcher against the words of the pattern *)

Lemma match_plus_spec (p : code_unit → bool) (k : jsstring → bool)
    (input : jsstring) :
  RegExp.match_plus p k input = true ↔
  ∃ ws rest, input = ws ++ rest ∧ ws ≠ [] ∧
             Forall (λ c, p c = true) ws ∧ k rest = true.
Proof.
  induction input as [|c input IH]; simpl.
  - split; [done |]. intros (ws & rest & Heq & Hne & _).
    destruct ws; [done | discriminate].
  - rewrite andb_true_iff, orb_true_iff, IH. split.
    + intros [Hc [(ws & rest & -> & Hne & Hall & Hk) | Hk]].
      * exists (c :: ws), rest. repeat split; auto.
      * exists [c], input. repeat split; auto.
    + intros (ws & rest & Heq & Hne & Hall & Hk).
      destruct ws as [|c' ws]; [done |].
      injection Heq as -> ->. inversion Hall as [|? ? Hc Hall']; subst.
      split; [done |]. destruct ws as [|c'' ws].
      * by right.
      * left. exists (c'' :: ws), rest. repeat split; auto.
Qed.

Lemma match_terms_spec (ts : RegExp.Alternative) (k : jsstring → bool)
    (input : jsstring) :
  RegExp.match_terms ts k input = true ↔
  ∃ w rest, input = w ++ rest ∧ RegExp.lang ts w ∧ k rest = true.
Proof.
  revert input; induction ts as [|[a [[]|]] ts IH]; intros input; simpl.
  - split.
    + intros Hk. by exists [], input.
    + intros (w & rest & -> & -> & Hk). done.
  - rewrite match_plus_spec. split.
    + intros (ws & rest & -> & Hne & Hall & Hk).
      apply IH in Hk as (w & rest' & -> & Hw & Hk).
      exists (ws ++ w), rest'. rewrite <- app_assoc.
      repeat split; auto. by exists ws, w.
    + intros (w & rest & -> & (ws & w' & -> & Hne & Hall & Hw) & Hk).
      exists ws, (w' ++ rest). rewrite <- app_assoc.
      repeat split; auto. apply IH. by exists w', rest.
  - destruct input as [|c input].
    + split; [done |].
      intros (w & rest & Heq & (c & w' & -> & _) & _). discriminate.
    + rewrite andb_true_iff, IH. split.
      * intros [Hc (w & rest & -> & Hw & Hk)].
        exists (c :: w), rest. repeat split; auto. by exists c, w.
      * intros (w & rest & Heq & (c' & w' & -> & Hc & Hw) & Hk).
        injection Heq as -> ->. split; [done |]. by exists w', rest.
Qed.

Lemma test_spec (r : RegExp.Alternative) (input : jsstring) :
  RegExp.test r input = true ↔
  ∃ pre w post, input = pre ++ w ++ post ∧ RegExp.lang r w.
Proof.
  induction input as [|c input IH]; simpl;
    rewrite orb_true_iff, match_terms_spec.
  - split.
    + intros [(w & rest & Heq & Hw & _) | ?]; [| done].
      by exists [], w, rest.
    + intros (pre & w & post & Heq & Hw). left.
      destruct pre; [| discriminate]. by exists w, post.
  - rewrite IH. split.
    + intros [(w & rest & Heq & Hw & _) | (pre & w & post & -> & Hw)].
      * by exists [], w, rest.
      * by exists (c :: pre), w, post.
    + intros (pre & w & post & Heq & Hw). destruct pre as [|c' pre].
      * left. by exists w, post.
      * right. injection Heq as -> ->. by exists pre, w, post.
Qed.

Lemma lang_ppv_pattern (w : jsstring) :
  RegExp.lang ppv_pattern w ↔
  ∃ ws ds, w = lit "UFC" ++ ws ++ ds ∧
    ws ≠ [] ∧ Forall (λ c, RegExp.is_white_space c = true) ws ∧
    ds ≠ [] ∧ Forall (λ c, RegExp.is_digit c = true) ds.
Proof.
  simpl. split.
  - intros (c1 & w1 & -> & H1 & c2 & w2 & -> & H2 & c3 & w3 & -> & H3 &
            ws & w4 & -> & Hws & Hs & ds & w5 & -> & Hds & Hd & ->).
    apply N.eqb_eq in H1, H2, H3. subst.
    exists ws, ds. rewrite app_nil_r. done.
  - intros (ws & ds & -> & Hws & Hs & Hds & Hd).
    exists 85%N, (lit "FC" ++ ws ++ ds). split; [done |]. split; [done |].
    exists 70%N, (lit "C" ++ ws ++ ds). split; [done |]. split; [done |].
    exists 67%N, (ws ++ ds). split; [done |]. split; [done |].
    exists ws, ds. split; [done |]. split; [done |]. split; [done |].
    exists ds, []. rewrite app_nil_r. done.
Qed.

Lemma isPayPerView_spec (e : UFCEvent) :
  isPayPerView e = true ↔ ppv_shaped (UFCEvent.name e).
Proof.
  unfold isPayPerView, ppv_shaped. rewrite test_spec. split.
  - intros (pre & w & post & Heq & Hw).
    apply lang_ppv_pattern in Hw as (ws & ds & -> & Hrest).
    exists pre, ws, ds, post. split; [| done].
    rewrite Heq. by rewrite <- !app_assoc.
  - intros (pre & ws & ds & post & Heq & Hrest).
    exists pre, (lit "UFC" ++ ws ++ ds), post. split.
    + rewrite Heq. by rewrite <- !app_assoc.
    + apply lang_ppv_pattern. by exists ws, ds.
Qed.

(** C1: the filter keeps an event exactly when its name holds, anywhere,
    [UFC] followed by one or more white-space characters and then one or
    more decimal digits; so the PPV subset is the events of that shape.
    [UFC 300] and [UFC 1] are kept, [UFC Fight Night: X vs Y] and
    [Contender Series] are not. *)
Theorem C1_ppv_filter_is_the_pattern :
  (∀ e : UFCEvent, isPayPerView e = true ↔ ppv_shaped (UFCEvent.name e)) ∧
  (∀ (events : list UFCEvent) (e : UFCEvent),
     In e (ppvEvents events) ↔
     In e events ∧ ppv_shaped (UFCEvent.name e)) ∧
  RegExp.test ppv_pattern (lit "UFC 300") = true ∧
  RegExp.test ppv_pattern (lit "UFC 1") = true ∧
  RegExp.test ppv_pattern (lit "UFC Fight Night: X vs Y") = false ∧
  RegExp.test ppv_pattern (lit "Contender Series") = false.
Proof.
  split; [exact isPayPerView_spec |]. split.
  - intros events e. unfold ppvEvents.
    rewrite filter_In, isPayPerView_spec. done.
  - repeat split; vm_compute; reflexivity.
Qed.

(** ** Substrings of texts built from lines *)

Lemma includes_app_l (a b p : jsstring) : includes a p → includes (a ++ b) p.
Proof.
  intros (pre & post & ->). exists pre, (post ++ b).
  by rewrite <- !app_assoc.
Qed.

Lemma includes_app_r (a b p : jsstring) : includes b p → includes (a ++ b) p.
Proof.
  intros (pre & post & ->). exists (a ++ pre), post.
  by rewrite <- !app_assoc.
Qed.

(** A text without a newline lies on one side of a newline. *)
Lemma includes_app_LF (a b p : jsstring) :
  10%N ∉ p →
  includes (a ++ LF ++ b) p ↔ includes a p ∨ includes b p.
Proof.
  intros Hp. split.
  - intros (pre & post & Heq).
    apply app_eq_inv in Heq as [(k & -> & Hk) | (k & -> & Hk)].
    + apply app_eq_inv in Hk as [(k' & -> & Hk') | (k' & -> & Hk')].
      * destruct k' as [|c k'].
        -- left. exists pre, []. by rewrite !app_nil_r.
        -- injection Hk' as <- _. exfalso. apply Hp.
           apply elem_of_app. right. left.
      * left. exists pre, k'. by rewrite <- ?app_assoc.
    + destruct k as [|c k].
      * destruct p as [|c p].
        -- left. exists a, []. by rewrite app_nil_r.
        -- injection Hk as <- _. exfalso. apply Hp. left.
      * injection Hk as _ ->. right. by exists k, post.
  - intros [Ha | Hb].
    + by apply includes_app_l.
    + apply includes_app_r. by apply includes_app_r.
Qed.

Lemma includes_unlines (ls : list jsstring) (last p : jsstring) :
  10%N ∉ p →
  includes (unlines ls ++ last) p ↔
  Exists (λ l, includes l p) ls ∨ includes last p.
Proof.
  intros Hp. induction ls as [|l ls IH]; simpl.
  - rewrite Exists_nil. tauto.
  - rewrite <- !app_assoc, includes_app_LF, IH, Exists_cons by done. tauto.
Qed.

Lemma join_unlines (xs : list jsstring) :
  xs ≠ [] → join LF xs ++ LF = unlines xs.
Proof.
  induction xs as [|x [|y xs] IH]; intros Hne; [done | |].
  - simpl. by rewrite app_nil_r.
  - change (join LF (x :: y :: xs)) with (x ++ LF ++ join LF (y :: xs)).
    change (unlines (x :: y :: xs)) with ((x ++ LF) ++ unlines (y :: xs)).
    rewrite <- !app_assoc, IH by done. done.
Qed.

Lemma unlines_app (xs ys : list jsstring) :
  unlines (xs ++ ys) = unlines xs ++ unlines ys.
Proof. unfold unlines. apply flat_map_app. Qed.

Lemma hrs_before_Main_one_line : 10%N ∉ hrs_before_Main.
Proof. rewrite list_elem_of_In. vm_compute. intuition discriminate. Qed.

Lemma fixed_line_without_suffix (l : jsstring) :
  includesb l hrs_before_Main = false → ¬ includes l hrs_before_Main.
Proof. intros Hb Hl. apply includesb_spec in Hl. congruence. Qed.

(** A line of fixed text is checked by running [includesb] on it. *)
Ltac without_suffix l :=
  assert (¬ includes l hrs_before_Main)
    by (by apply fixed_line_without_suffix).

Section WithHost.
Context `{Host}.

(** ** The header suffix *)

Lemma time_value_in_range (n : Z) :
  seconds_in_range n → new_Date (times 1000 (Some n)) = Some (n * 1000)%Z.
Proof.
  unfold seconds_in_range, new_Date, TimeClip, times. simpl. intros Hn.
  destruct (Z.leb_spec (Z.abs (n * 1000)) 8640000000000000); [done | lia].
Qed.

Lemma time_value_Some (x : number) (t : Z) :
  new_Date (times 1000 x) = Some t →
  ∃ n, x = Some n ∧ seconds_in_range n ∧ t = (n * 1000)%Z.
Proof.
  destruct x as [n|]; [| done]. unfold new_Date, TimeClip, times. simpl.
  destruct (Z.leb_spec (Z.abs (n * 1000)) 8640000000000000); [| done].
  intros [= <-]. exists n. unfold seconds_in_range. repeat split; lia.
Qed.

Lemma parseInt_empty : parseInt [] = NaN.
Proof. reflexivity. Qed.

Lemma hoursAgo_suffix_before (date : jsstring)
    (time : option jsstring) (ms : Z) :
  starts_before_by date time ms →
  hoursAgo_suffix (new_Date (times 1000 (parseInt date))) time
  = lit " (" ++ hours_toString ms ++ hrs_before_Main.
Proof.
  intros (s & p & d & -> & Hp & Hd & Hrp & Hrd & Hlt & ->).
  unfold hoursAgo_suffix, valueOf.
  destruct s as [|c s]; [by rewrite parseInt_empty in Hp |].
  simpl truthy. cbv iota. rewrite Hp, Hd, !time_value_in_range by done.
  destruct (Z.gtb_spec (d * 1000 - p * 1000) 0); [| lia].
  by replace (d * 1000 - p * 1000)%Z with ((d - p) * 1000)%Z by lia.
Qed.

Lemma hoursAgo_suffix_inv (date : jsstring)
    (time : option jsstring) :
  hoursAgo_suffix (new_Date (times 1000 (parseInt date))) time ≠ [] →
  starts_before date time.
Proof.
  unfold hoursAgo_suffix, valueOf.
  destruct time as [s|]; [| done].
  destruct (truthy s); [| done].
  destruct (new_Date (times 1000 (parseInt date))) as [d|] eqn:Hd; [| done].
  destruct (new_Date (times 1000 (parseInt s))) as [p|] eqn:Hp; [| done].
  destruct (Z.gtb_spec (d - p) 0); [| done]. intros _.
  apply time_value_Some in Hd as (d' & Hd & Hrd & ->).
  apply time_value_Some in Hp as (p' & Hp & Hrp & ->).
  exists ((d' - p') * 1000)%Z, s, p', d'. repeat split; auto. lia.
Qed.

Lemma hoursAgo_suffix_not_before (date : jsstring)
    (time : option jsstring) :
  ¬ starts_before date time →
  hoursAgo_suffix (new_Date (times 1000 (parseInt date))) time = [].
Proof.
  intros Hnot.
  destruct (hoursAgo_suffix _ time) as [|c l] eqn:Hs; [done |].
  exfalso. apply Hnot, hoursAgo_suffix_inv. by rewrite Hs.
Qed.

Lemma starts_before_dec (date : jsstring) (time : option jsstring) :
  starts_before date time ∨ ¬ starts_before date time.
Proof.
  destruct (hoursAgo_suffix (new_Date (times 1000 (parseInt date))) time)
    as [|c l] eqn:Hs.
  - right. intros [ms Hms]. rewrite (hoursAgo_suffix_before _ _ _ Hms) in Hs.
    discriminate.
  - left. apply hoursAgo_suffix_inv. by rewrite Hs.
Qed.

(** ** What [formatEventForCalendar] returns *)

Lemma unlines_cons (l : jsstring) (ls : list jsstring) :
  unlines (l :: ls) = l ++ LF ++ unlines ls.
Proof. unfold unlines. simpl. by rewrite <- app_assoc. Qed.

Lemma unlines_nil : unlines [] = [].
Proof. reflexivity. Qed.

Lemma formatEventForCalendar_description (e : UFCEvent)
    (calName : jsstring) (w : World) :
  ∃ a, formatEventForCalendar e calName w = (Normal a, tick w) ∧
       EventAttributes.description a
       = unlines (description_lines e) ++ lit "Accurate as of " ++ stamp w 0.
Proof.
  eexists. split; [reflexivity |].
  cbn [EventAttributes.description].
  unfold description_lines, timed_section_lines.
  destruct (UFCEvent.fightCard e) as [|f fs] eqn:Hf;
  destruct (UFCEvent.mainCard e) as [|m ms] eqn:Hm;
  destruct (UFCEvent.prelims e) as [|p ps] eqn:Hp;
  destruct (UFCEvent.earlyPrelims e) as [|q qs] eqn:Hq.
  all: cbn [has_length].
  all: cbv iota.
  all: rewrite ?join_unlines by done.
  all: rewrite ?unlines_app, ?unlines_cons, ?unlines_nil.
  all: rewrite <- ?app_assoc, ?app_nil_r.
  all: reflexivity.
Qed.

(** ** The suffix in the description *)

Lemma header_with_suffix (header date : jsstring)
    (time : option jsstring) :
  includesb header hrs_before_Main = false →
  includes
    (header ++ hoursAgo_suffix (new_Date (times 1000 (parseInt date))) time)
    hrs_before_Main
  ↔ starts_before date time.
Proof.
  intros Hheader. split.
  - intros Hin. destruct (starts_before_dec date time) as [| Hnot]; [done |].
    rewrite hoursAgo_suffix_not_before, app_nil_r in Hin by done.
    by apply fixed_line_without_suffix in Hin.
  - intros [ms Hms]. rewrite (hoursAgo_suffix_before _ _ _ Hms).
    exists (header ++ lit " (" ++ hours_toString ms), [].
    by rewrite <- !app_assoc, app_nil_r.
Qed.

Lemma Exists_timed_section (header date : jsstring)
    (time : option jsstring) (cards : list jsstring) :
  includesb header hrs_before_Main = false →
  Exists (λ l, includes l hrs_before_Main)
    (timed_section_lines header
       (new_Date (times 1000 (parseInt date))) time cards)
  ↔ (cards ≠ [] ∧ starts_before date time)
    ∨ Exists (λ l, includes l hrs_before_Main) cards.
Proof.
  intros Hheader. unfold timed_section_lines.
  destruct cards as [|c cards]; cbn [has_length]; cbv iota.
  - rewrite Exists_nil. intuition congruence.
  - rewrite Exists_app, !Exists_cons, Exists_nil, header_with_suffix by done.
    without_suffix (@nil code_unit).
    without_suffix dashes.
    assert (c :: cards ≠ []) by done.
    tauto.
Qed.

Lemma Exists_main_card (cards : list jsstring) :
  Exists (λ l, includes l hrs_before_Main)
    (if has_length cards then [lit "Main Card"; dashes] ++ cards else [])
  ↔ Exists (λ l, includes l hrs_before_Main) cards.
Proof.
  destruct cards as [|c cards]; cbn [has_length]; cbv iota; [done |].
  rewrite Exists_app, !Exists_cons, Exists_nil.
  without_suffix (lit "Main Card").
  without_suffix dashes.
  tauto.
Qed.

Lemma prelims_header_in_description (e : UFCEvent) (last : jsstring) :
  UFCEvent.prelims e ≠ [] →
  includes (unlines (description_lines e) ++ last)
    (LF ++ (lit "Prelims"
              ++ hoursAgo_suffix
                   (new_Date (times 1000 (parseInt (UFCEvent.date e))))
                   (UFCEvent.prelimsTime e))
        ++ LF ++ dashes ++ LF).
Proof.
  intros Hp. unfold description_lines, timed_section_lines at 1.
  destruct (UFCEvent.prelims e) as [|p ps]; [done |].
  cbn [has_length]; cbv iota.
  rewrite !unlines_app, !unlines_cons, unlines_nil, app_nil_r.
  rewrite <- !app_assoc.
  apply includes_app_r, includes_app_r.
  eexists [], _. cbn [app]. rewrite <- !app_assoc. reflexivity.
Qed.

(** C2, as the code has it: the [Prelims] header exists only when
    prelims are listed.  Then a start time that is present, valid and
    earlier than [date] (itself valid) puts the suffix on the header
    line, and otherwise the header line is bare.  The text
    [ hrs before Main)] is in the description exactly when the [Prelims]
    header carries it, or the [Early Prelims] header carries it, or a
    card entry, the url or the footer line contains it.  When no prelims
    are listed no [Prelims] header line is written, with or without a
    suffix: the description is exactly the lines of the fight card, of
    the main card section and of the early prelims section, the url
    lines and the footer. *)
Theorem C2_suffix_on_prelims_header (e : UFCEvent)
    (calName : jsstring) (w : World) :
  ∃ a, formatEventForCalendar e calName w = (Normal a, tick w) ∧
    (∀ ms, UFCEvent.prelims e ≠ [] →
       starts_before_by (UFCEvent.date e) (UFCEvent.prelimsTime e) ms →
       includes (EventAttributes.description a)
         (LF ++ (lit "Prelims" ++ lit " (" ++ hours_toString ms
                   ++ hrs_before_Main)
             ++ LF ++ dashes ++ LF)) ∧
    (UFCEvent.prelims e ≠ [] →
     ¬ starts_before (UFCEvent.date e) (UFCEvent.prelimsTime e) →
     includes (EventAttributes.description a)
       (LF ++ lit "Prelims" ++ LF ++ dashes ++ LF)) ∧
    (includes (EventAttributes.description a) hrs_before_Main ↔
       (UFCEvent.prelims e ≠ [] ∧
        starts_before (UFCEvent.date e) (UFCEvent.prelimsTime e)) ∨
       (UFCEvent.earlyPrelims e ≠ [] ∧
        starts_before (UFCEvent.date e) (UFCEvent.earlyPrelimsTime e)) ∨
       Exists (λ l, includes l hrs_before_Main)
         (UFCEvent.fightCard e ++ UFCEvent.mainCard e
            ++ UFCEvent.prelims e ++ UFCEvent.earlyPrelims e
            ++ [href (UFCEvent.url e);
                lit "Accurate as of " ++ stamp w 0])) ∧
    (UFCEvent.prelims e = [] →
     EventAttributes.description a
     = unlines
         (UFCEvent.fightCard e
          ++ match UFCEvent.mainCard e with
             | [] => []
             | _ => [lit "Main Card"; dashes] ++ UFCEvent.mainCard e
             end
          ++ match UFCEvent.earlyPrelims e with
             | [] => []
             | _ =>
                 [ [];
                   lit "Early Prelims"
                     ++ hoursAgo_suffix
                          (new_Date
                             (times 1000 (parseInt (UFCEvent.date e))))
                          (UFCEvent.earlyPrelimsTime e);
                   dashes ] ++ UFCEvent.earlyPrelims e
             end
          ++ [[]; href (UFCEvent.url e); []])
       ++ lit "Accurate as of " ++ stamp w 0).
Proof.
  destruct (formatEventForCalendar_description e calName w)
    as (a & Hrun & Hdesc).
  exists a. split; [exact Hrun |]. rewrite Hdesc. split; [| split; [| split]].
  - intros ms Hp Hms.
    rewrite <- (hoursAgo_suffix_before _ _ _ Hms).
    by apply prelims_header_in_description.
  - intros Hp Hnot.
    pose proof (prelims_header_in_description e
                  (lit "Accurate as of " ++ stamp w 0) Hp) as Hin.
    by rewrite hoursAgo_suffix_not_before, app_nil_r in Hin.
  - rewrite includes_unlines by apply hrs_before_Main_one_line.
    unfold description_lines.
    rewrite !Exists_app, !Exists_timed_section, Exists_main_card by done.
    rewrite !Exists_cons, Exists_nil.
    without_suffix (@nil code_unit).
    tauto.
  - intros Hp. unfold description_lines, timed_section_lines.
    rewrite Hp. cbn [has_length]; cbv iota.
    by destruct (UFCEvent.mainCard e), (UFCEvent.earlyPrelims e).
Qed.

(** ** The fields of an entry *)

(** C3: with a fight card, the description starts with its entries
    joined by newlines and a closing newline, with no header before
    them; what follows starts with the [Main Card] header when a main
    card is listed and with a blank line otherwise. *)
Theorem C3_fight_card_comes_first (e : UFCEvent)
    (calName : jsstring) (w : World) :
  UFCEvent.fightCard e ≠ [] →
  ∃ a rest,
    formatEventForCalendar e calName w = (Normal a, tick w) ∧
    EventAttributes.description a
    = join LF (UFCEvent.fightCard e) ++ LF ++ rest ∧
    (UFCEvent.mainCard e ≠ [] →
     ∃ rest', rest = lit "Main Card" ++ LF ++ dashes ++ LF
                       ++ join LF (UFCEvent.mainCard e) ++ LF ++ rest') ∧
    (UFCEvent.mainCard e = [] → ∃ rest', rest = LF ++ rest').
Proof.
  intros Hf.
  destruct (formatEventForCalendar_description e calName w)
    as (a & Hrun & Hdesc).
  exists a. eexists. split; [exact Hrun |]. split.
  - rewrite Hdesc. unfold description_lines.
    rewrite unlines_app, <- join_unlines, <- !app_assoc by done.
    reflexivity.
  - split.
    + intros Hm. destruct (UFCEvent.mainCard e) as [|m ms]; [done |].
      cbn [has_length]; cbv iota.
      rewrite !unlines_app, !unlines_cons, unlines_nil, app_nil_r.
      rewrite <- (unlines_cons m ms), <- join_unlines by done.
      rewrite <- !app_assoc. eexists. reflexivity.
    + intros ->. cbn [has_length]; cbv iota. unfold timed_section_lines.
      destruct (UFCEvent.prelims e), (UFCEvent.earlyPrelims e);
        cbn [has_length]; cbv iota;
        rewrite ?unlines_app, ?unlines_cons, ?unlines_nil;
        rewrite <- ?app_assoc; eexists; reflexivity.
Qed.

(** C4: the uid of the entry is the event's url string, whatever the
    date is. *)
Theorem C4_uid_is_the_url (e : UFCEvent) (calName : jsstring)
    (w : World) :
  ∃ a, formatEventForCalendar e calName w = (Normal a, tick w) ∧
       EventAttributes.uid a = href (UFCEvent.url e).
Proof. eexists. split; reflexivity. Qed.

(** C6: the duration of the entry is three hours, and only the [hours]
    key is set. *)
Theorem C6_duration_is_three_hours (e : UFCEvent)
    (calName : jsstring) (w : World) :
  ∃ a, formatEventForCalendar e calName w = (Normal a, tick w) ∧
       EventAttributes.duration a
       = {| DurationObject.weeks := None; DurationObject.days := None;
            DurationObject.hours := Some 3%Z;
            DurationObject.minutes := None;
            DurationObject.seconds := None;
            DurationObject.before := None |}.
Proof. eexists. split; reflexivity. Qed.

(** C7: the entry has one alarm, a display alarm 30 minutes before the
    start, whose text is the title, which is the event's name, followed
    by [ starting soon!]. *)
Theorem C7_one_display_alarm (e : UFCEvent) (calName : jsstring)
    (w : World) :
  ∃ a, formatEventForCalendar e calName w = (Normal a, tick w) ∧
       EventAttributes.title a = UFCEvent.name e ∧
       EventAttributes.alarms a
       = [ {| Alarm.action := lit "display";
              Alarm.description :=
                EventAttributes.title a ++ lit " starting soon!";
              Alarm.trigger :=
                {| DurationObject.weeks := None;
                   DurationObject.days := None;
                   DurationObject.hours := None;
                   DurationObject.minutes := Some 30%Z;
                   DurationObject.seconds := None;
                   DurationObject.before := Some true |} |} ].
Proof. eexists. split; [reflexivity |]. split; reflexivity. Qed.

(** ** Mapping the events *)

Lemma after_S (n : nat) (w : World) : after (S n) w = after n (tick w).
Proof. unfold after. apply Nat.iter_succ_r. Qed.

Lemma clock_after (n : nat) (w : World) : clock (after n w) = clock w.
Proof. induction n as [|n IH]; [done |]. exact IH. Qed.

Lemma ticks_after (n : nat) (w : World) : ticks (after n w) = n + ticks w.
Proof. induction n as [|n IH]; [done |]. simpl. by rewrite IH. Qed.

Lemma stamp_after (n : nat) (w : World) :
  stamp (after n w) 0 = stamp w n.
Proof. unfold stamp. by rewrite clock_after, ticks_after. Qed.

Lemma mapM_cons (calName : jsstring) (e : UFCEvent)
    (events : list UFCEvent) (w : World) :
  mapM (λ e, formatEventForCalendar e calName) (e :: events) w
  = match formatEventForCalendar e calName w with
    | (Normal a, w') =>
        match mapM (λ e, formatEventForCalendar e calName) events w' with
        | (Normal es, w'') => (Normal (a :: es), w'')
        | (Throw err, w'') => (Throw err, w'')
        end
    | (Throw err, w') => (Throw err, w')
    end.
Proof. reflexivity. Qed.

(** Every event gets its entry, in order, each from one more reading of
    the clock. *)
Lemma mapM_formatEventForCalendar (calName : jsstring)
    (events : list UFCEvent) (w : World) :
  ∃ es,
    mapM (λ e, formatEventForCalendar e calName) events w
    = (Normal es, after (length events) w) ∧
    length es = length events ∧
    ∀ i e, events !! i = Some e →
      ∃ a, es !! i = Some a ∧
           formatEventForCalendar e calName (after i w)
           = (Normal a, tick (after i w)).
Proof.
  revert w. induction events as [|e events IH]; intros w.
  - exists []. split; [reflexivity |]. split; [reflexivity |].
    intros i e Hi. by rewrite lookup_nil in Hi.
  - destruct (IH (tick w)) as (es & Hrun & Hlen & Hes).
    destruct (formatEventForCalendar_description e calName w)
      as (a & Ha & _).
    exists (a :: es). split; [| split].
    + rewrite mapM_cons, Ha, Hrun. cbn [length]. by rewrite after_S.
    + simpl. by rewrite Hlen.
    + intros [|i] e' Hi.
      * injection Hi as <-. exists a. split; [reflexivity | exact Ha].
      * destruct (Hes i e' Hi) as (a' & Hlook & Hrun').
        exists a'. split; [exact Hlook |]. by rewrite after_S.
Qed.

Lemma two_runs_of_one_event (e : UFCEvent) (c1 c2 : jsstring)
    (w1 w2 w1' w2' : World) (a b : EventAttributes) :
  formatEventForCalendar e c1 w1 = (Normal a, w1') →
  formatEventForCalendar e c2 w2 = (Normal b, w2') →
  EventAttributes.uid a = EventAttributes.uid b ∧
  EventAttributes.title a = EventAttributes.title b ∧
  EventAttributes.start a = EventAttributes.start b ∧
  EventAttributes.duration a = EventAttributes.duration b ∧
  EventAttributes.location a = EventAttributes.location b ∧
  EventAttributes.alarms a = EventAttributes.alarms b ∧
  EventAttributes.calName a = c1 ∧
  EventAttributes.calName b = c2 ∧
  ∃ body,
    EventAttributes.description a
    = body ++ LF ++ lit "Accurate as of " ++ stamp w1 0 ∧
    EventAttributes.description b
    = body ++ LF ++ lit "Accurate as of " ++ stamp w2 0.
Proof.
  intros [= <- <-] [= <- <-]. repeat split.
  eexists. split; reflexivity.
Qed.

(** C10: an event of the PPV subset has an entry in each feed; when the
    clock reads the same for both, the two entries agree on start,
    duration, title, description, location, uid and alarms, and differ
    in the calendar name, [UFC] in the full feed and [UFC-PPV] in the
    PPV feed. *)
Theorem C10_ppv_entry_differs_in_calName_only
    (events : list UFCEvent) (w1 w2 : World) (i j : nat) (e : UFCEvent) :
  events !! i = Some e →
  ppvEvents events !! j = Some e →
  clock w1 (i + ticks w1) = clock w2 (j + ticks w2) →
  ∃ full ppv a b,
    mapM (λ event, formatEventForCalendar event (lit "UFC")) events w1
    = (Normal full, after (length events) w1) ∧
    mapM (λ e, formatEventForCalendar e (lit "UFC-PPV")) (ppvEvents events) w2
    = (Normal ppv, after (length (ppvEvents events)) w2) ∧
    isPayPerView e = true ∧
    full !! i = Some a ∧ ppv !! j = Some b ∧
    EventAttributes.start a = EventAttributes.start b ∧
    EventAttributes.duration a = EventAttributes.duration b ∧
    EventAttributes.title a = EventAttributes.title b ∧
    EventAttributes.description a = EventAttributes.description b ∧
    EventAttributes.location a = EventAttributes.location b ∧
    EventAttributes.uid a = EventAttributes.uid b ∧
    EventAttributes.alarms a = EventAttributes.alarms b ∧
    EventAttributes.calName a = lit "UFC" ∧
    EventAttributes.calName b = lit "UFC-PPV".
Proof.
  intros Hi Hj Hclock.
  destruct (mapM_formatEventForCalendar (lit "UFC") events w1)
    as (full & Hrun1 & _ & Hfull).
  destruct (mapM_formatEventForCalendar (lit "UFC-PPV") (ppvEvents events) w2)
    as (ppv & Hrun2 & _ & Hppv).
  destruct (Hfull i e Hi) as (a & Ha & Hfa).
  destruct (Hppv j e Hj) as (b & Hb & Hfb).
  destruct (two_runs_of_one_event _ _ _ _ _ _ _ _ _ Hfa Hfb)
    as (? & ? & ? & ? & ? & ? & Hca & Hcb & body & Hda & Hdb).
  rewrite stamp_after in Hda, Hdb.
  exists full, ppv, a, b. repeat split; try done.
  - apply list_elem_of_lookup_2, list_elem_of_In in Hj.
    unfold ppvEvents in Hj. by apply filter_In in Hj as [_ ?].
  - rewrite Hda, Hdb. unfold stamp. by rewrite Hclock.
Qed.

(** ** Running [createICS] *)

Lemma bind_normal {A B} (m : M A) (f : A → M B) (w w' : World) (a : A) :
  m w = (Normal a, w') → (m ≫= f) w = f a w'.
Proof. intros Hm. unfold mbind, M_bind. by rewrite Hm. Qed.

Lemma try_catch_throw {A} (body : M A) (handler : JsError → M A)
    (w w' : World) (e : JsError) :
  body w = (Throw e, w') → try_catch body handler w = handler e w'.
Proof. intros Hb. unfold try_catch. by rewrite Hb. Qed.

Lemma files_after (n : nat) (w : World) : files (after n w) = files w.
Proof. induction n as [|n IH]; [done |]. exact IH. Qed.

Lemma trace_after (n : nat) (w : World) : trace (after n w) = trace w.
Proof. induction n as [|n IH]; [done |]. exact IH. Qed.

(** The entries do not depend on what was logged before. *)
Lemma mapM_emit (calName : jsstring) (events : list UFCEvent)
    (x : Action) (w : World) :
  mapM (λ e, formatEventForCalendar e calName) events (emit x w)
  = ((mapM (λ e, formatEventForCalendar e calName) events w).1,
     emit x (mapM (λ e, formatEventForCalendar e calName) events w).2).
Proof.
  revert w. induction events as [|e events IH]; intros w; [reflexivity |].
  rewrite !mapM_cons.
  change (formatEventForCalendar e calName (emit x w))
    with ((formatEventForCalendar e calName w).1,
          emit x (formatEventForCalendar e calName w).2).
  destruct (formatEventForCalendar_description e calName w) as (a & -> & _).
  cbn [fst snd]. rewrite IH.
  by destruct (mapM (λ e, formatEventForCalendar e calName) events (tick w))
    as [[es|err] w''].
Qed.

Lemma formattedEvents_emit (events : list UFCEvent) (x : Action)
    (w : World) :
  formattedEvents events (emit x w) = formattedEvents events w.
Proof.
  unfold formattedEvents. rewrite mapM_emit.
  by destruct (mapM (λ event, formatEventForCalendar event (lit "UFC"))
                events w) as [[es|err] w''].
Qed.

Lemma mapM_formattedEvents (events : list UFCEvent) (w : World) :
  mapM (λ event, formatEventForCalendar event (lit "UFC")) events w
  = (Normal (formattedEvents events w), after (length events) w).
Proof.
  destruct (mapM_formatEventForCalendar (lit "UFC") events w)
    as (es & Hrun & _).
  unfold formattedEvents. by rewrite Hrun.
Qed.

(** C8: when the scraper gives no list or an empty list, the run ends
    with exit code 1; nothing is serialized and no file is written. *)
Theorem C8_no_events_is_fatal (w : World) :
  getAllDetailedEvents = Normal None ∨
  getAllDetailedEvents = Normal (Some []) →
  ∃ w',
    createICS w = (Normal (), w') ∧
    exitCode w' = Some 1%Z ∧
    files w' = files w ∧
    trace w' = trace w ++
      [ ConsoleLog (green_circle ++ lit " Fetching UFC events...");
        CallGetAllDetailedEvents;
        ConsoleError (cross_mark ++ lit " Error generating ICS:")
          (Error (lit "No events retrieved.")) ].
Proof.
  intros Hacq. eexists. split.
  - unfold createICS. erewrite try_catch_throw.
    + reflexivity.
    + erewrite bind_normal by reflexivity.
      unfold mbind, M_bind, await_getAllDetailedEvents.
      destruct Hacq as [-> | ->]; reflexivity.
  - cbn. by rewrite <- !app_assoc.
Qed.

(** C9: when the serializer reports an error for the full feed, the run
    ends there with exit code 1: the serializer is called once, for the
    full feed, the PPV feed is not mapped or serialized, and no file is
    written, so there is no [UFC-PPV.ics] from this run. *)
Theorem C9_full_feed_error_aborts_the_run (w : World)
    (events : list UFCEvent) (err : JsError) :
  getAllDetailedEvents = Normal (Some events) →
  events ≠ [] →
  createEvents (formattedEvents events w) = inl err →
  ∃ w',
    createICS w = (Normal (), w') ∧
    exitCode w' = Some 1%Z ∧
    files w' = files w ∧
    trace w' = trace w ++
      [ ConsoleLog (green_circle ++ lit " Fetching UFC events...");
        CallGetAllDetailedEvents;
        ConsoleLog (check_mark ++ lit " Retrieved "
                      ++ length_toString (length events) ++ lit " events.");
        ConsoleLog (memo ++ lit " Generating UFC.ics...");
        CallCreateEvents (formattedEvents events w);
        ConsoleError (cross_mark ++ lit " Error generating ICS:") err ].
Proof.
  intros Hacq Hne Herr. destruct events as [|e0 events]; [done |].
  eexists. split.
  - unfold createICS. erewrite try_catch_throw.
    + reflexivity.
    + erewrite bind_normal by reflexivity.
      erewrite bind_normal
        by (unfold await_getAllDetailedEvents; rewrite Hacq; reflexivity).
      cbv iota beta.
      erewrite bind_normal by reflexivity.
      erewrite bind_normal by apply mapM_formattedEvents.
      erewrite bind_normal by reflexivity.
      erewrite bind_normal by reflexivity.
      rewrite !formattedEvents_emit, Herr. reflexivity.
  - cbn [exitCode files trace exit_with emit].
    rewrite files_after, trace_after. cbn [files trace emit].
    by rewrite <- !app_assoc.
Qed.

(** ** Every way a run can go *)

Lemma formatEventForCalendar_same_reading (e : UFCEvent)
    (calName : jsstring) (w1 w2 : World) :
  clock w1 (ticks w1) = clock w2 (ticks w2) →
  (formatEventForCalendar e calName w1).1
  = (formatEventForCalendar e calName w2).1.
Proof.
  intros Hc.
  cbv [formatEventForCalendar mbind M_bind new_Date_now mret M_ret fst].
  by rewrite Hc.
Qed.

Lemma mapM_same_clock (calName : jsstring) (events : list UFCEvent)
    (w1 w2 : World) :
  clock w1 = clock w2 → ticks w1 = ticks w2 →
  (mapM (λ e, formatEventForCalendar e calName) events w1).1
  = (mapM (λ e, formatEventForCalendar e calName) events w2).1.
Proof.
  revert w1 w2. induction events as [|e events IH]; intros w1 w2 Hc Ht;
    [reflexivity |].
  rewrite !mapM_cons.
  pose proof (formatEventForCalendar_same_reading e calName w1 w2) as He.
  destruct (formatEventForCalendar_description e calName w1) as (a & Ha & _).
  destruct (formatEventForCalendar_description e calName w2) as (b & Hb & _).
  rewrite Ha, Hb in He |- *. cbn [fst] in He.
  injection He as <-; [| by rewrite Hc, Ht].
  specialize (IH (tick w1) (tick w2)). cbn [tick clock ticks] in IH.
  specialize (IH Hc (f_equal S Ht)).
  destruct (mapM (λ e, formatEventForCalendar e calName) events (tick w1))
    as [[es1|err1] w1'];
  destruct (mapM (λ e, formatEventForCalendar e calName) events (tick w2))
    as [[es2|err2] w2']; cbn [fst] in IH |- *; congruence.
Qed.

Lemma formattedEvents_same_clock (events : list UFCEvent) (w1 w2 : World) :
  clock w1 = clock w2 → ticks w1 = ticks w2 →
  formattedEvents events w1 = formattedEvents events w2.
Proof.
  intros Hc Ht. unfold formattedEvents.
  pose proof (mapM_same_clock (lit "UFC") events w1 w2 Hc Ht) as Hm.
  destruct (mapM_formatEventForCalendar (lit "UFC") events w1)
    as (es1 & H1 & _).
  destruct (mapM_formatEventForCalendar (lit "UFC") events w2)
    as (es2 & H2 & _).
  rewrite H1, H2 in Hm |- *. cbn [fst] in Hm. by injection Hm.
Qed.

Lemma formattedPPV_same_clock (events : list UFCEvent) (w1 w2 : World) :
  clock w1 = clock w2 → ticks w1 = ticks w2 →
  formattedPPV events w1 = formattedPPV events w2.
Proof.
  intros Hc Ht. unfold formattedPPV.
  pose proof (mapM_same_clock (lit "UFC-PPV") (ppvEvents events) w1 w2 Hc Ht)
    as Hm.
  destruct (mapM_formatEventForCalendar (lit "UFC-PPV") (ppvEvents events) w1)
    as (es1 & H1 & _).
  destruct (mapM_formatEventForCalendar (lit "UFC-PPV") (ppvEvents events) w2)
    as (es2 & H2 & _).
  rewrite H1, H2 in Hm |- *. cbn [fst] in Hm. by injection Hm.
Qed.

Lemma mapM_formattedPPV (events : list UFCEvent) (w : World) :
  mapM (λ e, formatEventForCalendar e (lit "UFC-PPV")) (ppvEvents events) w
  = (Normal (formattedPPV events w), after (length (ppvEvents events)) w).
Proof.
  destruct (mapM_formatEventForCalendar (lit "UFC-PPV") (ppvEvents events) w)
    as (es & Hrun & _).
  unfold formattedPPV. by rewrite Hrun.
Qed.

Lemma length_formattedPPV (events : list UFCEvent) (w : World) :
  length (formattedPPV events w) = length (ppvEvents events).
Proof.
  destruct (mapM_formatEventForCalendar (lit "UFC-PPV") (ppvEvents events) w)
    as (es & Hrun & Hlen & _).
  unfold formattedPPV. by rewrite Hrun.
Qed.

Lemma exitCode_after (n : nat) (w : World) :
  exitCode (after n w) = exitCode w.
Proof. induction n as [|n IH]; [done |]. exact IH. Qed.

Lemma cwd_after (n : nat) (w : World) : cwd (after n w) = cwd w.
Proof. induction n as [|n IH]; [done |]. exact IH. Qed.

Ltac run_bind :=
  erewrite bind_normal
    by first
      [ reflexivity
      | apply mapM_formattedEvents
      | apply mapM_formattedPPV
      | match goal with
        | Hacq : getAllDetailedEvents = _ |- _ =>
            unfold await_getAllDetailedEvents; rewrite Hacq; reflexivity
        end
      | match goal with
        | Hw : write_error _ = None |- _ =>
            unfold writeFileSync; rewrite Hw; reflexivity
        end ].

(** The fields of a world built by [emit], [store], [exit_with] and
    [after]. *)
Ltac world_fields :=
  repeat (cbn [clock ticks cwd files exitCode trace emit store exit_with];
          rewrite ?clock_after, ?ticks_after, ?cwd_after, ?files_after,
            ?exitCode_after, ?trace_after).

Ltac same_clock := world_fields; reflexivity.

Lemma run_both_feeds_written (w : World) (events : list UFCEvent)
    (allVal ppvVal : jsstring) :
  getAllDetailedEvents = Normal (Some events) →
  events ≠ [] →
  createEvents (formattedEvents events w) = inr allVal →
  write_error (ufcPath w) = None →
  createEvents (formattedPPV events (after (length events) w)) = inr ppvVal →
  write_error (ppvPath w) = None →
  ∃ w',
    createICS w = (Normal (), w') ∧
    ticks w' = length (ppvEvents events) + (length events + ticks w) ∧
    ends_as w w' (exitCode w)
      (<[ppvPath w := ppvVal]> (<[ufcPath w := allVal]> (files w)))
      (before_first_write events w
         ++ first_write_to_second_feed events allVal w
         ++ [ WriteFile (ppvPath w) ppvVal; log_wrote (ppvPath w) ppvVal;
              log_complete ]).
Proof.
  intros Hacq Hne Hall Hw1 Hppv Hw2.
  destruct events as [|e0 events]; [done |].
  unfold ufcPath in Hw1. unfold ppvPath in Hw2.
  eexists. split.
  - unfold createICS, try_catch.
    do 2 run_bind. cbv iota beta. do 4 run_bind.
    rewrite !formattedEvents_emit, Hall.
    run_bind. world_fields. do 5 run_bind.
    rewrite (formattedPPV_same_clock _ _ (after (length (e0 :: events)) w))
      by same_clock.
    rewrite Hppv. do 2 run_bind.
    rewrite length_formattedPPV. reflexivity.
  - unfold ends_as. world_fields.
    unfold before_first_write, first_write_to_second_feed.
    rewrite <- !app_assoc. done.
Qed.

Lemma bind_throw {A B} (m : M A) (f : A → M B) (w w' : World)
    (e : JsError) :
  m w = (Throw e, w') → (m ≫= f) w = (Throw e, w').
Proof. intros Hm. unfold mbind, M_bind. by rewrite Hm. Qed.

Ltac run_throw :=
  erewrite bind_throw
    by first
      [ match goal with
        | Hacq : getAllDetailedEvents = _ |- _ =>
            unfold await_getAllDetailedEvents; rewrite Hacq; reflexivity
        end
      | match goal with
        | Hw : write_error _ = Some _ |- _ =>
            unfold writeFileSync; rewrite Hw; reflexivity
        end ].

Lemma run_scraper_rejects (w : World) (err : JsError) :
  getAllDetailedEvents = Throw err →
  ∃ w',
    createICS w = (Normal (), w') ∧
    ticks w' = ticks w ∧
    ends_as w w' (Some 1%Z)
      (files w)
      ([log_fetching; CallGetAllDetailedEvents; log_failure err]).
Proof.
  intros Hacq. eexists. split.
  - unfold createICS. erewrite try_catch_throw; [reflexivity |].
    run_bind. run_throw. reflexivity.
  - unfold ends_as. world_fields. rewrite <- !app_assoc. done.
Qed.

Lemma run_first_write_fails (w : World) (events : list UFCEvent)
    (allVal : jsstring) (err : JsError) :
  getAllDetailedEvents = Normal (Some events) →
  events ≠ [] →
  createEvents (formattedEvents events w) = inr allVal →
  write_error (ufcPath w) = Some err →
  ∃ w',
    createICS w = (Normal (), w') ∧
    ticks w' = length events + ticks w ∧
    ends_as w w' (Some 1%Z)
      (files w)
      (before_first_write events w ++ [log_failure err]).
Proof.
  intros Hacq Hne Hall Hw1.
  destruct events as [|e0 events]; [done |].
  unfold ufcPath in Hw1.
  eexists. split.
  - unfold createICS. erewrite try_catch_throw; [reflexivity |].
    do 2 run_bind. cbv iota beta. do 4 run_bind.
    rewrite !formattedEvents_emit, Hall.
    run_bind. world_fields. run_throw. reflexivity.
  - unfold ends_as. world_fields. unfold before_first_write.
    rewrite <- !app_assoc. done.
Qed.

Lemma run_ppv_feed_refused (w : World) (events : list UFCEvent)
    (allVal : jsstring) (err : JsError) :
  getAllDetailedEvents = Normal (Some events) →
  events ≠ [] →
  createEvents (formattedEvents events w) = inr allVal →
  write_error (ufcPath w) = None →
  createEvents (formattedPPV events (after (length events) w)) = inl err →
  ∃ w',
    createICS w = (Normal (), w') ∧
    ticks w' = length (ppvEvents events) + (length events + ticks w) ∧
    ends_as w w' (Some 1%Z)
      (<[ufcPath w := allVal]> (files w))
      (before_first_write events w
         ++ first_write_to_second_feed events allVal w
         ++ [log_failure err]).
Proof.
  intros Hacq Hne Hall Hw1 Hppv.
  destruct events as [|e0 events]; [done |].
  unfold ufcPath in Hw1.
  eexists. split.
  - unfold createICS. erewrite try_catch_throw; [reflexivity |].
    do 2 run_bind. cbv iota beta. do 4 run_bind.
    rewrite !formattedEvents_emit, Hall.
    run_bind. world_fields. do 5 run_bind.
    rewrite (formattedPPV_same_clock _ _ (after (length (e0 :: events)) w))
      by same_clock.
    rewrite Hppv, length_formattedPPV. reflexivity.
  - unfold ends_as. world_fields.
    unfold before_first_write, first_write_to_second_feed.
    rewrite <- !app_assoc. done.
Qed.

Lemma run_second_write_fails (w : World) (events : list UFCEvent)
    (allVal ppvVal : jsstring) (err : JsError) :
  getAllDetailedEvents = Normal (Some events) →
  events ≠ [] →
  createEvents (formattedEvents events w) = inr allVal →
  write_error (ufcPath w) = None →
  createEvents (formattedPPV events (after (length events) w)) = inr ppvVal →
  write_error (ppvPath w) = Some err →
  ∃ w',
    createICS w = (Normal (), w') ∧
    ticks w' = length (ppvEvents events) + (length events + ticks w) ∧
    ends_as w w' (Some 1%Z)
      (<[ufcPath w := allVal]> (files w))
      (before_first_write events w
         ++ first_write_to_second_feed events allVal w
         ++ [log_failure err]).
Proof.
  intros Hacq Hne Hall Hw1 Hppv Hw2.
  destruct events as [|e0 events]; [done |].
  unfold ufcPath in Hw1. unfold ppvPath in Hw2.
  eexists. split.
  - unfold createICS. erewrite try_catch_throw; [reflexivity |].
    do 2 run_bind. cbv iota beta. do 4 run_bind.
    rewrite !formattedEvents_emit, Hall.
    run_bind. world_fields.
    erewrite bind_normal
      by (unfold writeFileSync; rewrite Hw1; reflexivity).
    do 4 run_bind.
    rewrite (formattedPPV_same_clock _ _ (after (length (e0 :: events)) w))
      by same_clock.
    rewrite Hppv, length_formattedPPV.
    erewrite bind_throw
      by (unfold writeFileSync; rewrite Hw2; reflexivity).
    reflexivity.
  - unfold ends_as. world_fields.
    unfold before_first_write, first_write_to_second_feed.
    rewrite <- !app_assoc. done.
Qed.

Lemma run_without_events (w : World) :
  getAllDetailedEvents = Normal None ∨
  getAllDetailedEvents = Normal (Some []) →
  ∃ w',
    createICS w = (Normal (), w') ∧
    ends_as w w' (Some 1%Z) (files w)
      [ log_fetching; CallGetAllDetailedEvents;
        log_failure (Error (lit "No events retrieved.")) ].
Proof.
  intros Hacq. eexists. split.
  - unfold createICS. erewrite try_catch_throw; [reflexivity |].
    destruct Hacq as [Hacq | Hacq]; do 2 run_bind; reflexivity.
  - unfold ends_as. world_fields. rewrite <- !app_assoc. done.
Qed.

Lemma run_full_feed_refused (w : World) (events : list UFCEvent)
    (err : JsError) :
  getAllDetailedEvents = Normal (Some events) →
  events ≠ [] →
  createEvents (formattedEvents events w) = inl err →
  ∃ w',
    createICS w = (Normal (), w') ∧
    ends_as w w' (Some 1%Z) (files w)
      (before_first_write events w ++ [log_failure err]).
Proof.
  intros Hacq Hne Hall.
  destruct events as [|e0 events]; [done |].
  eexists. split.
  - unfold createICS. erewrite try_catch_throw; [reflexivity |].
    do 2 run_bind. cbv iota beta. do 4 run_bind.
    rewrite !formattedEvents_emit, Hall. reflexivity.
  - unfold ends_as. world_fields. unfold before_first_write.
    rewrite <- !app_assoc. done.
Qed.

(** Whatever the scraper, the serializer and the file system do, the
    run returns normally and ends in one of the five ways. *)
Lemma createICS_outcomes (w : World) :
  ∃ w', createICS w = (Normal (), w') ∧ run_outcome w w'.
Proof.
  destruct getAllDetailedEvents as [[events|]|err] eqn:Hacq.
  - destruct (decide (events = [])) as [-> | Hne].
    { destruct (run_without_events w) as (w' & Hrun & Hend); [by right |].
      exists w'. split; [done |]. left. eexists. split; [| exact Hend].
      right. split; [done |]. by right. }
    destruct (createEvents (formattedEvents events w)) as [err|allVal] eqn:Hall.
    { destruct (run_full_feed_refused w events err) as (w' & Hrun & Hend);
        [done.. |].
      exists w'. split; [done |]. right. left.
      exists events, err. split_and!; auto. }
    destruct (write_error (ufcPath w)) as [err|] eqn:Hw1.
    { destruct (run_first_write_fails w events allVal err)
        as (w' & Hrun & _ & Hend); [done.. |].
      exists w'. split; [done |]. right. left.
      exists events, err. split_and!; auto. }
    destruct (createEvents (formattedPPV events (after (length events) w)))
      as [err|ppvVal] eqn:Hppv.
    { destruct (run_ppv_feed_refused w events allVal err)
        as (w' & Hrun & _ & Hend); [done.. |].
      exists w'. split; [done |]. right. right. left.
      exists events, allVal, err. split_and!; auto. }
    destruct (write_error (ppvPath w)) as [err|] eqn:Hw2.
    { destruct (run_second_write_fails w events allVal ppvVal err)
        as (w' & Hrun & _ & Hend); [done.. |].
      exists w'. split; [done |]. right. right. left.
      exists events, allVal, err. split_and!; auto. }
    destruct (run_both_feeds_written w events allVal ppvVal)
      as (w' & Hrun & _ & Hend); [done.. |].
    exists w'. split; [done |]. right. right. right.
    exists events, allVal, ppvVal. split_and!; auto.
  - destruct (run_without_events w) as (w' & Hrun & Hend); [by left |].
    exists w'. split; [done |]. left. eexists. split; [| exact Hend].
    right. split; [done |]. by left.
  - destruct (run_scraper_rejects w err)
      as (w' & Hrun & _ & Hend); [done |].
    exists w'. split; [done |]. left. exists err. split; [by left | done].
Qed.

(** ** What a run leaves behind *)

(** X1: when the scraper gives events, the serializer accepts both feeds
    and both writes succeed, the run writes the serializer's two
    documents to [UFC.ics] and [UFC-PPV.ics], leaves the exit code as it
    was, reads the clock once for every entry of each feed, and does
    these twelve things in this order. *)
Theorem createICS_writes_both_feeds (w : World) (events : list UFCEvent)
    (allVal ppvVal : jsstring) :
  getAllDetailedEvents = Normal (Some events) →
  events ≠ [] →
  createEvents (formattedEvents events w) = inr allVal →
  write_error (ufcPath w) = None →
  createEvents (formattedPPV events (after (length events) w)) = inr ppvVal →
  write_error (ppvPath w) = None →
  ∃ w',
    createICS w = (Normal (), w') ∧
    exitCode w' = exitCode w ∧
    files w' = <[ppvPath w := ppvVal]> (<[ufcPath w := allVal]> (files w)) ∧
    ticks w' = length (ppvEvents events) + (length events + ticks w) ∧
    trace w' = trace w ++
      [ log_fetching;
        CallGetAllDetailedEvents;
        log_retrieved (length events);
        log_generating;
        CallCreateEvents (formattedEvents events w);
        WriteFile (ufcPath w) allVal;
        log_wrote (ufcPath w) allVal;
        log_generating_ppv (length (ppvEvents events));
        CallCreateEvents (formattedPPV events (after (length events) w));
        WriteFile (ppvPath w) ppvVal;
        log_wrote (ppvPath w) ppvVal;
        log_complete ].
Proof.
  intros Hacq Hne Hall Hw1 Hppv Hw2.
  destruct (run_both_feeds_written w events allVal ppvVal)
    as (w' & Hrun & Hticks & Hexit & Hfiles & Htrace); [done.. |].
  exists w'. by split_and!.
Qed.

(** X2: when the scraper throws, the run catches the error, prints it,
    sets the exit code to 1 and stops: nothing is mapped, serialized or
    written. *)
Theorem createICS_scraper_rejects (w : World) (err : JsError) :
  getAllDetailedEvents = Throw err →
  ∃ w',
    createICS w = (Normal (), w') ∧
    exitCode w' = Some 1%Z ∧
    files w' = files w ∧
    ticks w' = ticks w ∧
    trace w' = trace w
      ++ [log_fetching; CallGetAllDetailedEvents; log_failure err].
Proof.
  intros Hacq.
  destruct (run_scraper_rejects w err)
    as (w' & Hrun & Hticks & Hexit & Hfiles & Htrace); [done |].
  exists w'. by split_and!.
Qed.

(** X3: when the serializer accepts the full feed and writing [UFC.ics]
    fails, the run prints the file system's error and sets the exit
    code to 1; no file is changed and the PPV feed is not mapped or
    serialized. *)
Theorem createICS_first_write_fails (w : World) (events : list UFCEvent)
    (allVal : jsstring) (err : JsError) :
  getAllDetailedEvents = Normal (Some events) →
  events ≠ [] →
  createEvents (formattedEvents events w) = inr allVal →
  write_error (ufcPath w) = Some err →
  ∃ w',
    createICS w = (Normal (), w') ∧
    exitCode w' = Some 1%Z ∧
    files w' = files w ∧
    ticks w' = length events + ticks w ∧
    trace w' = trace w ++
      [ log_fetching;
        CallGetAllDetailedEvents;
        log_retrieved (length events);
        log_generating;
        CallCreateEvents (formattedEvents events w);
        log_failure err ].
Proof.
  intros Hacq Hne Hall Hw1.
  destruct (run_first_write_fails w events allVal err)
    as (w' & Hrun & Hticks & Hexit & Hfiles & Htrace); [done.. |].
  exists w'. by split_and!.
Qed.

(** X4: when [UFC.ics] has been written and the PPV feed then fails, by
    an error of the serializer or of the second write, the run ends with
    exit code 1 and [UFC.ics] stays written: the only change to the
    files is the full feed. *)
Theorem createICS_ppv_failure_keeps_full_feed (w : World)
    (events : list UFCEvent) (allVal : jsstring) (err : JsError) :
  getAllDetailedEvents = Normal (Some events) →
  events ≠ [] →
  createEvents (formattedEvents events w) = inr allVal →
  write_error (ufcPath w) = None →
  createEvents (formattedPPV events (after (length events) w)) = inl err ∨
  (write_error (ppvPath w) = Some err ∧
   ∃ ppvVal,
     createEvents (formattedPPV events (after (length events) w))
     = inr ppvVal) →
  ∃ w',
    createICS w = (Normal (), w') ∧
    exitCode w' = Some 1%Z ∧
    files w' = <[ufcPath w := allVal]> (files w) ∧
    trace w' = trace w ++
      [ log_fetching;
        CallGetAllDetailedEvents;
        log_retrieved (length events);
        log_generating;
        CallCreateEvents (formattedEvents events w);
        WriteFile (ufcPath w) allVal;
        log_wrote (ufcPath w) allVal;
        log_generating_ppv (length (ppvEvents events));
        CallCreateEvents (formattedPPV events (after (length events) w));
        log_failure err ].
Proof.
  intros Hacq Hne Hall Hw1 [Hppv | (Hw2 & ppvVal & Hppv)].
  - destruct (run_ppv_feed_refused w events allVal err)
      as (w' & Hrun & _ & Hexit & Hfiles & Htrace); [done.. |].
    exists w'. by split_and!.
  - destruct (run_second_write_fails w events allVal ppvVal err)
      as (w' & Hrun & _ & Hexit & Hfiles & Htrace); [done.. |].
    exists w'. by split_and!.
Qed.

(** X5: the run never throws.  It ends with the completion line and the
    exit code untouched, or with an error line and exit code 1. *)
Theorem createICS_returns_and_reports (w : World) :
  ∃ w',
    createICS w = (Normal (), w') ∧
    ((exitCode w' = exitCode w ∧ last (trace w') = Some log_complete) ∨
     (exitCode w' = Some 1%Z ∧
      ∃ err, last (trace w') = Some (log_failure err))).
Proof.
  destruct (createICS_outcomes w) as (w' & Hrun & Hout).
  exists w'. split; [exact Hrun |].
  destruct Hout as
    [ (err & _ & Hexit & _ & Htrace)
    | [ (events & err & _ & _ & _ & Hexit & _ & Htrace)
      | [ (events & allVal & err & _ & _ & _ & _ & Hexit & _ & Htrace)
        | (events & allVal & ppvVal & _ & _ & _ & _ & Hexit & _ & Htrace) ]]];
    rewrite Htrace, ?app_assoc.
  - right. split; [done |]. exists err.
    by rewrite (last_snoc _ (log_failure err)) || rewrite last_app.
  - right. split; [done |]. exists err. by rewrite last_snoc.
  - right. split; [done |]. exists err. by rewrite last_snoc.
  - left. split; [done |]. by rewrite last_app.
Qed.

(** X6: a run leaves the files as they were, or with [UFC.ics]
    replaced, or with both [UFC.ics] and [UFC-PPV.ics] replaced; it
    never writes [UFC-PPV.ics] alone, it writes both only when it also
    leaves the exit code alone, and it changes no other path. *)
Theorem createICS_files_left (w : World) :
  ∃ w',
    createICS w = (Normal (), w') ∧
    (files w' = files w ∨
     (∃ allVal,
        files w' = <[ufcPath w := allVal]> (files w) ∧
        exitCode w' = Some 1%Z) ∨
     (∃ allVal ppvVal,
        files w'
        = <[ppvPath w := ppvVal]> (<[ufcPath w := allVal]> (files w)) ∧
        exitCode w' = exitCode w)) ∧
    ∀ path, path ≠ ufcPath w → path ≠ ppvPath w →
      files w' !! path = files w !! path.
Proof.
  destruct (createICS_outcomes w) as (w' & Hrun & Hout).
  exists w'. split; [exact Hrun |].
  destruct Hout as
    [ (err & _ & Hexit & Hfiles & _)
    | [ (events & err & _ & _ & _ & Hexit & Hfiles & _)
      | [ (events & allVal & err & _ & _ & _ & _ & Hexit & Hfiles & _)
        | (events & allVal & ppvVal & _ & _ & _ & _ & Hexit & Hfiles & _) ]]];
    rewrite Hfiles; (split; [| intros path Hufc Hppv]).
  - by left.
  - done.
  - by left.
  - done.
  - right. left. by exists allVal.
  - by rewrite lookup_insert_ne.
  - right. right. by exists allVal, ppvVal.
  - by rewrite !lookup_insert_ne.
Qed.

(** X7: the scraper is called once in a run, right after the first
    line is printed, and never again. *)
Theorem createICS_calls_the_scraper_once (w : World) :
  ∃ w' rest,
    createICS w = (Normal (), w') ∧
    trace w' = trace w ++ [log_fetching; CallGetAllDetailedEvents] ++ rest ∧
    CallGetAllDetailedEvents ∉ rest.
Proof.
  destruct (createICS_outcomes w) as (w' & Hrun & Hout).
  exists w'.
  destruct Hout as
    [ (err & _ & _ & _ & Htrace)
    | [ (events & err & _ & _ & _ & _ & _ & Htrace)
      | [ (events & allVal & err & _ & _ & _ & _ & _ & _ & Htrace)
        | (events & allVal & ppvVal & _ & _ & _ & _ & _ & _ & Htrace) ]]];
    eexists; (split; [exact Hrun |]); (split; [exact Htrace |]);
    intros Hin;
    repeat (apply elem_of_cons in Hin as [Hin | Hin]; [discriminate |]);
    by apply elem_of_nil in Hin.
Qed.

(** ** More on the description *)

Lemma part_refl {A} (l : list A) : ∃ before rest, l = before ++ l ++ rest.
Proof. exists [], []. by rewrite app_nil_r. Qed.

Lemma part_skip {A} (part ls skipped : list A) :
  (∃ before rest, ls = before ++ part ++ rest) →
  ∃ before rest, skipped ++ ls = before ++ part ++ rest.
Proof.
  intros (before & rest & ->). exists (skipped ++ before), rest.
  by rewrite <- app_assoc.
Qed.

Lemma part_cut {A} (part ls cut : list A) :
  (∃ before rest, ls = before ++ part ++ rest) →
  ∃ before rest, ls ++ cut = before ++ part ++ rest.
Proof.
  intros (before & rest & ->). exists before, (rest ++ cut).
  by rewrite <- !app_assoc.
Qed.

Lemma includes_unlines_part (ls part : list jsstring) (last : jsstring) :
  (∃ before rest, ls = before ++ part ++ rest) →
  includes (unlines ls ++ last) (unlines part).
Proof.
  intros (before & rest & ->).
  exists (unlines before), (unlines rest ++ last).
  by rewrite !unlines_app, <- !app_assoc.
Qed.

(** X8: the description is these lines in this order, each closed by a
    newline, and then the footer: the fight card; for a main card its
    header, the separator and its entries; for prelims and for early
    prelims a blank line, the header with its suffix, the separator and
    the entries; a blank line, the url, a blank line.  A section whose
    list is empty gives no line at all. *)
Theorem description_line_by_line (e : UFCEvent) (calName : jsstring)
    (w : World) :
  ∃ a,
    formatEventForCalendar e calName w = (Normal a, tick w) ∧
    let date := new_Date (times 1000 (parseInt (UFCEvent.date e))) in
    EventAttributes.description a
    = unlines
        (UFCEvent.fightCard e
         ++ match UFCEvent.mainCard e with
            | [] => []
            | _ => [lit "Main Card"; dashes] ++ UFCEvent.mainCard e
            end
         ++ match UFCEvent.prelims e with
            | [] => []
            | _ =>
                [ [];
                  lit "Prelims"
                    ++ hoursAgo_suffix date (UFCEvent.prelimsTime e);
                  dashes ] ++ UFCEvent.prelims e
            end
         ++ match UFCEvent.earlyPrelims e with
            | [] => []
            | _ =>
                [ [];
                  lit "Early Prelims"
                    ++ hoursAgo_suffix date (UFCEvent.earlyPrelimsTime e);
                  dashes ] ++ UFCEvent.earlyPrelims e
            end
         ++ [[]; href (UFCEvent.url e); []])
      ++ lit "Accurate as of " ++ stamp w 0.
Proof.
  destruct (formatEventForCalendar_description e calName w)
    as (a & Hrun & Hdesc).
  exists a. split; [exact Hrun |]. rewrite Hdesc.
  unfold description_lines, timed_section_lines.
  by destruct (UFCEvent.mainCard e), (UFCEvent.prelims e),
    (UFCEvent.earlyPrelims e).
Qed.

(** X9: no bout is dropped or reordered: the entries of each of the
    four lists stand in the description one per line, in the order of
    the list and next to each other. *)
Theorem description_keeps_every_bout (e : UFCEvent) (calName : jsstring)
    (w : World) :
  ∃ a,
    formatEventForCalendar e calName w = (Normal a, tick w) ∧
    includes (EventAttributes.description a)
      (unlines (UFCEvent.fightCard e)) ∧
    includes (EventAttributes.description a)
      (unlines (UFCEvent.mainCard e)) ∧
    includes (EventAttributes.description a)
      (unlines (UFCEvent.prelims e)) ∧
    includes (EventAttributes.description a)
      (unlines (UFCEvent.earlyPrelims e)).
Proof.
  destruct (formatEventForCalendar_description e calName w)
    as (a & Hrun & Hdesc).
  exists a. split; [exact Hrun |]. rewrite Hdesc.
  unfold description_lines, timed_section_lines.
  set (last := lit "Accurate as of " ++ stamp w 0).
  split_and!; apply includes_unlines_part.
  - apply part_cut, part_refl.
  - apply part_skip, part_cut.
    destruct (UFCEvent.mainCard e) as [|m ms];
      cbn [has_length]; cbv iota; [by exists [], [] |].
    apply part_skip, part_refl.
  - do 2 apply part_skip. apply part_cut.
    destruct (UFCEvent.prelims e) as [|p ps];
      cbn [has_length]; cbv iota; [by exists [], [] |].
    apply part_skip, part_refl.
  - do 3 apply part_skip. apply part_cut.
    destruct (UFCEvent.earlyPrelims e) as [|q qs];
      cbn [has_length]; cbv iota; [by exists [], [] |].
    apply part_skip, part_refl.
Qed.

(** X10: whatever the sections are, the description ends with a blank
    line, the url, a blank line and the footer with the reading of the
    clock; when all four lists are empty that is the whole
    description. *)
Theorem description_ends_with_url_and_footer (e : UFCEvent)
    (calName : jsstring) (w : World) :
  ∃ a body,
    formatEventForCalendar e calName w = (Normal a, tick w) ∧
    EventAttributes.description a
    = body ++ LF ++ href (UFCEvent.url e) ++ LF ++ LF
        ++ lit "Accurate as of " ++ stamp w 0 ∧
    (UFCEvent.fightCard e = [] → UFCEvent.mainCard e = [] →
     UFCEvent.prelims e = [] → UFCEvent.earlyPrelims e = [] → body = []).
Proof.
  destruct (formatEventForCalendar_description e calName w)
    as (a & Hrun & Hdesc).
  exists a.
  exists (unlines
            (UFCEvent.fightCard e
             ++ (if has_length (UFCEvent.mainCard e)
                 then [lit "Main Card"; dashes] ++ UFCEvent.mainCard e
                 else [])
             ++ timed_section_lines (lit "Prelims")
                  (new_Date (times 1000 (parseInt (UFCEvent.date e))))
                  (UFCEvent.prelimsTime e) (UFCEvent.prelims e)
             ++ timed_section_lines (lit "Early Prelims")
                  (new_Date (times 1000 (parseInt (UFCEvent.date e))))
                  (UFCEvent.earlyPrelimsTime e) (UFCEvent.earlyPrelims e))).
  split; [exact Hrun |]. split.
  - rewrite Hdesc. unfold description_lines.
    rewrite !unlines_app, !unlines_cons.
    rewrite <- !app_assoc. reflexivity.
  - intros -> -> -> ->. reflexivity.
Qed.

Lemma early_prelims_header_in_description (e : UFCEvent) (last : jsstring) :
  UFCEvent.earlyPrelims e ≠ [] →
  includes (unlines (description_lines e) ++ last)
    (LF ++ (lit "Early Prelims"
              ++ hoursAgo_suffix
                   (new_Date (times 1000 (parseInt (UFCEvent.date e))))
                   (UFCEvent.earlyPrelimsTime e))
        ++ LF ++ dashes ++ LF).
Proof.
  intros Hq. unfold description_lines, timed_section_lines at 2.
  destruct (UFCEvent.earlyPrelims e) as [|q qs]; [done |].
  cbn [has_length]; cbv iota.
  rewrite !unlines_app, !unlines_cons, unlines_nil, app_nil_r.
  rewrite <- !app_assoc.
  do 3 apply includes_app_r.
  eexists [], _. cbn [app]. rewrite <- !app_assoc. reflexivity.
Qed.

(** X11: the [Early Prelims] header follows the same rule as the
    [Prelims] header, with [earlyPrelimsTime]: when early prelims are
    listed, a start time that is present, valid and earlier than a valid
    [date] puts the hours on the header line, and otherwise the header
    line is bare. *)
Theorem early_prelims_header_suffix (e : UFCEvent) (calName : jsstring)
    (w : World) :
  UFCEvent.earlyPrelims e ≠ [] →
  ∃ a,
    formatEventForCalendar e calName w = (Normal a, tick w) ∧
    (∀ ms,
       starts_before_by (UFCEvent.date e) (UFCEvent.earlyPrelimsTime e) ms →
       includes (EventAttributes.description a)
         (LF ++ (lit "Early Prelims" ++ lit " (" ++ hours_toString ms
                   ++ hrs_before_Main)
             ++ LF ++ dashes ++ LF)) ∧
    (¬ starts_before (UFCEvent.date e) (UFCEvent.earlyPrelimsTime e) →
     includes (EventAttributes.description a)
       (LF ++ lit "Early Prelims" ++ LF ++ dashes ++ LF)).
Proof.
  intros Hq.
  destruct (formatEventForCalendar_description e calName w)
    as (a & Hrun & Hdesc).
  exists a. split; [exact Hrun |]. rewrite Hdesc. split.
  - intros ms Hms.
    rewrite <- (hoursAgo_suffix_before _ _ _ Hms).
    by apply early_prelims_header_in_description.
  - intros Hnot.
    pose proof (early_prelims_header_in_description e
                  (lit "Accurate as of " ++ stamp w 0) Hq) as Hin.
    by rewrite hoursAgo_suffix_not_before, app_nil_r in Hin.
Qed.

(** X12: a start time that cannot put a suffix on its header is as good
    as absent.  When no prelims are listed, or [prelimsTime] is empty,
    not a number, out of range, or not earlier than [date], the entry
    is the one of the same event without [prelimsTime]; likewise for the
    early prelims. *)
Theorem useless_start_time_is_as_absent (e : UFCEvent)
    (calName : jsstring) (w : World) :
  (UFCEvent.prelims e = [] ∨
   ¬ starts_before (UFCEvent.date e) (UFCEvent.prelimsTime e) →
   formatEventForCalendar e calName w
   = formatEventForCalendar (without_prelimsTime e) calName w) ∧
  (UFCEvent.earlyPrelims e = [] ∨
   ¬ starts_before (UFCEvent.date e) (UFCEvent.earlyPrelimsTime e) →
   formatEventForCalendar e calName w
   = formatEventForCalendar (without_earlyPrelimsTime e) calName w).
Proof.
  split; intros Huseless;
    cbv [formatEventForCalendar mbind M_bind new_Date_now mret M_ret];
    cbn [without_prelimsTime without_earlyPrelimsTime UFCEvent.name
         UFCEvent.date UFCEvent.location UFCEvent.url UFCEvent.fightCard
         UFCEvent.mainCard UFCEvent.prelims UFCEvent.earlyPrelims
         UFCEvent.prelimsTime UFCEvent.earlyPrelimsTime].
  - destruct Huseless as [-> | Hnot]; [reflexivity |].
    by rewrite (hoursAgo_suffix_not_before _ (UFCEvent.prelimsTime e)).
  - destruct Huseless as [-> | Hnot]; [reflexivity |].
    by rewrite (hoursAgo_suffix_not_before _ (UFCEvent.earlyPrelimsTime e)).
Qed.

(** ** The start of an entry *)

Lemma civil_from_days_spec (z : Z) :
  let '(y, m, d) := civil_from_days z in
  (1 <= m <= 12)%Z ∧ (1 <= d <= 31)%Z ∧ days_from_civil y m d = z.
Proof.
  unfold civil_from_days.
  set (era := ((z + 719468) / 146097)%Z).
  set (doe := (z + 719468 - era * 146097)%Z).
  set (yoe := ((doe - doe / 1460 + doe / 36524 - doe / 146096) / 365)%Z).
  set (doy := (doe - (365 * yoe + yoe / 4 - yoe / 100))%Z).
  set (mp := ((5 * doy + 2) / 153)%Z).
  cbv zeta.
  assert (0 <= doe <= 146096)%Z as Hdoe
    by (subst doe era; Z.div_mod_to_equations; lia).
  assert ((0 <= yoe <= 399)%Z ∧ (0 <= doy <= 365)%Z) as [Hyoe Hdoy]
    by (subst doy yoe; Z.div_mod_to_equations; lia).
  assert (0 <= mp <= 11)%Z as Hmp
    by (subst mp; Z.div_mod_to_equations; lia).
  split; [destruct (Z.ltb_spec mp 10); lia |].
  split; [subst mp; Z.div_mod_to_equations; lia |].
  unfold days_from_civil.
  destruct (Z.ltb_spec mp 10) as [Hlt | Hge].
  - destruct (Z.leb_spec (mp + 3) 2); [lia |].
    replace (mp + 3 - 3)%Z with mp by lia. cbv zeta.
    replace ((yoe + era * 400 + 0) / 400)%Z with era
      by (Z.div_mod_to_equations; lia).
    replace (yoe + era * 400 + 0 - era * 400)%Z with yoe by lia.
    subst doy doe mp. Z.div_mod_to_equations. lia.
  - destruct (Z.leb_spec (mp - 9) 2); [| lia].
    replace (mp - 9 + 9)%Z with mp by lia. cbv zeta.
    replace ((yoe + era * 400 + 1 - 1) / 400)%Z with era
      by (Z.div_mod_to_equations; lia).
    replace (yoe + era * 400 + 1 - 1 - era * 400)%Z with yoe by lia.
    subst doy doe mp. Z.div_mod_to_equations. lia.
Qed.

Lemma time_in_its_minute (t : Z) :
  let '(y, m, d) := civil_from_days (Day t) in
  (minute_start y m d (HourFromTime t) (MinFromTime t) <= t
   < minute_start y m d (HourFromTime t) (MinFromTime t) + msPerMinute)%Z ∧
  (0 <= HourFromTime t <= 23)%Z ∧ (0 <= MinFromTime t <= 59)%Z.
Proof.
  pose proof (civil_from_days_spec (Day t)) as Hcivil.
  destruct (civil_from_days (Day t)) as [[y m] d].
  destruct Hcivil as (_ & _ & Hday).
  unfold minute_start. rewrite Hday.
  unfold Day, HourFromTime, MinFromTime, msPerDay, msPerHour, msPerMinute.
  Z.div_mod_to_equations. lia.
Qed.

(** X13: for a date that [parseInt] reads as seconds within the range
    of dates, the start is five integers: a month from 1 to 12, a day
    from 1 to 31, an hour from 0 to 23 and a minute from 0 to 59, and
    read back as a civil date and time they are the minute of local
    time the event starts in: the seconds are dropped. *)
Theorem start_is_the_local_minute (e : UFCEvent) (calName : jsstring)
    (w : World) (n : Z) :
  parseInt (UFCEvent.date e) = Some n →
  seconds_in_range n →
  ∃ a y m d h mi,
    formatEventForCalendar e calName w = (Normal a, tick w) ∧
    EventAttributes.start a = [Some y; Some m; Some d; Some h; Some mi] ∧
    (1 <= m <= 12)%Z ∧ (1 <= d <= 31)%Z ∧
    (0 <= h <= 23)%Z ∧ (0 <= mi <= 59)%Z ∧
    (minute_start y m d h mi <= LocalTime (n * 1000)
     < minute_start y m d h mi + msPerMinute)%Z.
Proof.
  intros Hdate Hrange.
  pose proof (civil_from_days_spec (Day (LocalTime (n * 1000)))) as Hcivil.
  pose proof (time_in_its_minute (LocalTime (n * 1000))) as Hminute.
  destruct (civil_from_days (Day (LocalTime (n * 1000)))) as [[y m] d] eqn:Hc.
  destruct Hcivil as (Hm & Hd & _). destruct Hminute as (Hin & Hh & Hmi).
  eexists. exists y, (m - 1 + 1)%Z, d.
  exists (HourFromTime (LocalTime (n * 1000))).
  exists (MinFromTime (LocalTime (n * 1000))).
  split; [reflexivity |]. split.
  - cbn [EventAttributes.start]. rewrite Hdate, time_value_in_range by done.
    unfold getFullYear, getMonth, getDate, getHours, getMinutes, plus1.
    cbn [fmap option_fmap option_map].
    unfold YearFromTime, MonthFromTime, DateFromTime. by rewrite Hc.
  - replace (m - 1 + 1)%Z with m by lia. done.
Qed.

(** X14: for a date that is not a number, or is one beyond the range of
    dates, every component of the start is NaN, and no header gets a
    suffix: the entry is the one of the event without its two start
    times. *)
Theorem start_of_an_invalid_date (e : UFCEvent) (calName : jsstring)
    (w : World) :
  parseInt (UFCEvent.date e) = NaN ∨
  (∃ n, parseInt (UFCEvent.date e) = Some n ∧ ¬ seconds_in_range n) →
  ∃ a,
    formatEventForCalendar e calName w = (Normal a, tick w) ∧
    EventAttributes.start a = [NaN; NaN; NaN; NaN; NaN] ∧
    formatEventForCalendar
      (without_prelimsTime (without_earlyPrelimsTime e)) calName w
    = (Normal a, tick w).
Proof.
  intros Hdate.
  assert (new_Date (times 1000 (parseInt (UFCEvent.date e))) = NaN) as Hnan.
  { destruct Hdate as [-> | (n & -> & Hout)]; [reflexivity |].
    unfold new_Date, TimeClip, times, seconds_in_range in *.
    cbn [fmap option_fmap option_map].
    destruct (Z.leb_spec (Z.abs (n * 1000)) 8640000000000000); [lia | done]. }
  eexists. split; [reflexivity |]. split.
  - cbn [EventAttributes.start]. by rewrite Hnan.
  - cbv [formatEventForCalendar mbind M_bind new_Date_now mret M_ret].
    cbn [without_prelimsTime without_earlyPrelimsTime UFCEvent.name
         UFCEvent.date UFCEvent.location UFCEvent.url UFCEvent.fightCard
         UFCEvent.mainCard UFCEvent.prelims UFCEvent.earlyPrelims
         UFCEvent.prelimsTime UFCEvent.earlyPrelimsTime].
    rewrite Hnan. unfold hoursAgo_suffix, valueOf.
    by destruct (UFCEvent.prelimsTime e) as [[|c s]|],
      (UFCEvent.earlyPrelimsTime e) as [[|c' s']|].
Qed.

(** ** The two lists *)

Lemma mapM_entries (calName : jsstring)
    (events : list UFCEvent) (w : World) :
  ∃ es w',
    mapM (λ e, formatEventForCalendar e calName) events w = (Normal es, w') ∧
    EventAttributes.title <$> es = UFCEvent.name <$> events ∧
    EventAttributes.location <$> es = UFCEvent.location <$> events ∧
    EventAttributes.uid <$> es = (λ e, href (UFCEvent.url e)) <$> events ∧
    Forall (λ a, EventAttributes.calName a = calName) es ∧
    (∀ i a, es !! i = Some a →
       ∃ body, EventAttributes.description a
               = body ++ LF ++ lit "Accurate as of " ++ stamp w i) ∧
    ticks w' = length events + ticks w ∧
    files w' = files w ∧ exitCode w' = exitCode w ∧ trace w' = trace w.
Proof.
  destruct (mapM_formatEventForCalendar calName events w)
    as (es & Hrun & Hlen & Hes).
  exists es, (after (length events) w). split; [exact Hrun |].
  assert (∀ i a, es !! i = Some a →
            ∃ e, events !! i = Some e ∧
                 formatEventForCalendar e calName (after i w)
                 = (Normal a, tick (after i w))) as Hback.
  { intros i a Ha.
    destruct (events !! i) as [e|] eqn:He.
    - destruct (Hes i e He) as (a' & Ha' & Hrun').
      exists e. split; [done |]. congruence.
    - apply lookup_ge_None in He. apply lookup_lt_Some in Ha. lia. }
  split_and!.
  - apply list_eq. intros i. rewrite !list_lookup_fmap.
    destruct (events !! i) as [e|] eqn:He.
    + destruct (Hes i e He) as (a & -> & Hrun'). cbn.
      by injection Hrun' as <-.
    + apply lookup_ge_None in He.
      by rewrite (lookup_ge_None_2 es i) by lia.
  - apply list_eq. intros i. rewrite !list_lookup_fmap.
    destruct (events !! i) as [e|] eqn:He.
    + destruct (Hes i e He) as (a & -> & Hrun'). cbn.
      by injection Hrun' as <-.
    + apply lookup_ge_None in He.
      by rewrite (lookup_ge_None_2 es i) by lia.
  - apply list_eq. intros i. rewrite !list_lookup_fmap.
    destruct (events !! i) as [e|] eqn:He.
    + destruct (Hes i e He) as (a & -> & Hrun'). cbn.
      by injection Hrun' as <-.
    + apply lookup_ge_None in He.
      by rewrite (lookup_ge_None_2 es i) by lia.
  - apply Forall_lookup. intros i a Ha.
    destruct (Hback i a Ha) as (e & _ & Hrun').
    by injection Hrun' as <-.
  - intros i a Ha.
    destruct (Hback i a Ha) as (e & _ & Hrun').
    rewrite <- stamp_after. injection Hrun' as <-.
    eexists. reflexivity.
  - apply ticks_after.
  - apply files_after.
  - apply exitCode_after.
  - apply trace_after.
Qed.

(** X15: mapping a list of events gives one entry per event, in the
    order of the list, with the event's name, place and url and the
    given calendar name; the [i]-th entry carries the [i]-th next
    reading of the clock in its footer.  The mapping reads the clock
    once per event and touches nothing else: files, exit code and output
    are as before. *)
Theorem mapping_keeps_order_and_count (calName : jsstring)
    (events : list UFCEvent) (w : World) :
  ∃ es w',
    mapM (λ e, formatEventForCalendar e calName) events w = (Normal es, w') ∧
    EventAttributes.title <$> es = UFCEvent.name <$> events ∧
    EventAttributes.location <$> es = UFCEvent.location <$> events ∧
    EventAttributes.uid <$> es = (λ e, href (UFCEvent.url e)) <$> events ∧
    Forall (λ a, EventAttributes.calName a = calName) es ∧
    (∀ i a, es !! i = Some a →
       ∃ body, EventAttributes.description a
               = body ++ LF ++ lit "Accurate as of " ++ stamp w i) ∧
    ticks w' = length events + ticks w ∧
    files w' = files w ∧ exitCode w' = exitCode w ∧ trace w' = trace w.
Proof. exact (mapM_entries calName events w). Qed.

(** X18: in a run, what the serializer gets for the full feed is one
    entry per event, in order and named [UFC]; what it gets for the PPV
    feed is one entry per event of the PPV subset, in order, named
    [UFC-PPV], each with a title of the numbered shape. *)
Theorem feeds_hold_the_right_events (events : list UFCEvent)
    (w1 w2 : World) :
  EventAttributes.title <$> formattedEvents events w1
  = UFCEvent.name <$> events ∧
  Forall (λ a, EventAttributes.calName a = lit "UFC")
    (formattedEvents events w1) ∧
  EventAttributes.title <$> formattedPPV events w2
  = UFCEvent.name <$> ppvEvents events ∧
  Forall (λ a, EventAttributes.calName a = lit "UFC-PPV" ∧
               ppv_shaped (EventAttributes.title a))
    (formattedPPV events w2).
Proof.
  destruct (mapM_entries (lit "UFC") events w1)
    as (full & w1' & Hfull & Htitles & _ & _ & Hcal & _).
  destruct (mapM_entries (lit "UFC-PPV") (ppvEvents events) w2)
    as (ppv & w2' & Hppv & Htitles' & _ & _ & Hcal' & _).
  unfold formattedEvents, formattedPPV. rewrite Hfull, Hppv.
  split_and!; [done.. |].
  apply Forall_lookup. intros i a Ha. split.
  - by eapply Forall_lookup in Hcal'.
  - assert ((EventAttributes.title <$> ppv) !! i
            = Some (EventAttributes.title a)) as Ht
      by (by rewrite list_lookup_fmap, Ha).
    rewrite Htitles', list_lookup_fmap in Ht.
    destruct (ppvEvents events !! i) as [e|] eqn:He; [| done].
    injection Ht as <-.
    apply list_elem_of_lookup_2, list_elem_of_In in He.
    unfold ppvEvents in He. apply filter_In in He as [_ He].
    by apply isPayPerView_spec.
Qed.

Lemma test_ppv_pattern_spec (name : jsstring) :
  RegExp.test ppv_pattern name = true ↔ ppv_shaped name.
Proof.
  unfold ppv_shaped. rewrite test_spec. split.
  - intros (pre & w & post & Heq & Hw).
    apply lang_ppv_pattern in Hw as (ws & ds & -> & Hrest).
    exists pre, ws, ds, post. split; [| done].
    rewrite Heq. by rewrite <- !app_assoc.
  - intros (pre & ws & ds & post & Heq & Hrest).
    exists pre, (lit "UFC" ++ ws ++ ds), post. split.
    + rewrite Heq. by rewrite <- !app_assoc.
    + apply lang_ppv_pattern. by exists ws, ds.
Qed.

(** X16: the pattern is not anchored: text before or after a name that
    matches leaves it matching.  A name that matches holds [UFC] and
    then, after white space, a digit; so a name with no digit, or
    without [UFC] in capitals, is never in the PPV feed. *)
Theorem ppv_pattern_is_not_anchored (name : jsstring) :
  RegExp.test ppv_pattern name = true →
  (∀ pre post, RegExp.test ppv_pattern (pre ++ name ++ post) = true) ∧
  includes name (lit "UFC") ∧
  Exists (λ c, RegExp.is_digit c = true) name ∧
  Exists (λ c, RegExp.is_white_space c = true) name.
Proof.
  intros Hname.
  apply test_ppv_pattern_spec in Hname
    as (pre0 & ws & ds & post0 & -> & Hws & Hspace & Hds & Hdigit).
  split_and!.
  - intros pre post. apply test_ppv_pattern_spec.
    exists (pre ++ pre0), ws, ds, (post0 ++ post).
    split; [| done]. by rewrite <- !app_assoc.
  - by exists pre0, (ws ++ ds ++ post0).
  - destruct ds as [|d ds]; [done |]. inversion Hdigit; subst.
    rewrite !Exists_app. right. right. right. left. by left.
  - destruct ws as [|c ws]; [done |]. inversion Hspace; subst.
    rewrite !Exists_app. right. right. left. by left.
Qed.

(** X17: the PPV subset keeps the order of the events and is never
    longer; filtering it again changes nothing; and the subset of two
    lists put end to end is the two subsets put end to end. *)
Theorem ppvEvents_is_an_ordered_part (events more : list UFCEvent) :
  sublist (ppvEvents events) events ∧
  length (ppvEvents events) ≤ length events ∧
  ppvEvents (ppvEvents events) = ppvEvents events ∧
  ppvEvents (events ++ more) = ppvEvents events ++ ppvEvents more ∧
  Forall (λ e, isPayPerView e = true) (ppvEvents events).
Proof.
  unfold ppvEvents. split_and!.
  - induction events as [|e events IH]; [constructor |]. simpl.
    destruct (isPayPerView e); by constructor.
  - induction events as [|e events IH]; [done |]. simpl.
    destruct (isPayPerView e); simpl; lia.
  - induction events as [|e events IH]; [done |]. simpl.
    destruct (isPayPerView e) eqn:He; simpl; by rewrite ?He, IH.
  - apply List.filter_app.
  - apply Forall_forall. intros e He.
    apply list_elem_of_In, filter_In in He. tauto.
Qed.

End WithHost.

(** * Two runs, on hosts that may differ *)

Lemma hoursAgo_suffix_two_hosts (H1 H2 : Host) (date : Date)
    (time : option jsstring) :
  (∀ ms, @hours_toString H1 ms = @hours_toString H2 ms) →
  @hoursAgo_suffix H1 date time = @hoursAgo_suffix H2 date time.
Proof.
  intros Hprint. unfold hoursAgo_suffix.
  destruct time as [s|]; [| done]. destruct (truthy s); [| done].
  destruct (valueOf date) as [d|]; [| done].
  destruct (valueOf (new_Date (times 1000 (parseInt s)))) as [p|]; [| done].
  cbv zeta. destruct (d - p >? 0)%Z; [| done]. by rewrite Hprint.
Qed.

Lemma start_two_hosts (H1 H2 : Host) (date : Date) :
  (∀ t, @LocalTZA H1 t = @LocalTZA H2 t) →
  [ @getFullYear H1 date; plus1 (@getMonth H1 date); @getDate H1 date;
    @getHours H1 date; @getMinutes H1 date ]
  = [ @getFullYear H2 date; plus1 (@getMonth H2 date); @getDate H2 date;
      @getHours H2 date; @getMinutes H2 date ].
Proof.
  intros Hzone. destruct date as [t|]; [| done].
  unfold getFullYear, getMonth, getDate, getHours, getMinutes, LocalTime.
  cbn [fmap option_fmap option_map]. by rewrite Hzone.
Qed.

Lemma one_event_on_two_hosts (H1 H2 : Host) (e : UFCEvent)
    (calName : jsstring) (w1 w2 w1' w2' : World) (a b : EventAttributes) :
  @formatEventForCalendar H1 e calName w1 = (Normal a, w1') →
  @formatEventForCalendar H2 e calName w2 = (Normal b, w2') →
  EventAttributes.uid a = EventAttributes.uid b ∧
  EventAttributes.title a = EventAttributes.title b ∧
  EventAttributes.duration a = EventAttributes.duration b ∧
  EventAttributes.location a = EventAttributes.location b ∧
  EventAttributes.calName a = EventAttributes.calName b ∧
  EventAttributes.alarms a = EventAttributes.alarms b ∧
  ((∀ t, @LocalTZA H1 t = @LocalTZA H2 t) →
   EventAttributes.start a = EventAttributes.start b) ∧
  ((∀ ms, @hours_toString H1 ms = @hours_toString H2 ms) →
   ∃ body,
     EventAttributes.description a
     = body ++ LF ++ lit "Accurate as of " ++ @stamp H1 w1 0 ∧
     EventAttributes.description b
     = body ++ LF ++ lit "Accurate as of " ++ @stamp H2 w2 0).
Proof.
  intros [= <- <-] [= <- <-]. split_and!; try reflexivity.
  - intros Hzone. cbn [EventAttributes.start]. by apply start_two_hosts.
  - intros Hprint. eexists. split; [reflexivity |].
    cbn [EventAttributes.description].
    by rewrite !(hoursAgo_suffix_two_hosts H1 H2) by done.
Qed.

(** C5, as the code has it: two runs of the mapping on the same list,
    on any two hosts and whatever the clock reads in each, give for
    every event two entries with the same uid, title, duration and
    location (and calendar name and alarm).  The start is read in the
    local time zone of the process, so the two starts are the same when
    the two hosts have the same offset from UTC.  With numbers printed
    the same way on both hosts, as the language prints them, the two
    descriptions are the same text up to the timestamp that ends the
    footer, which is each run's own reading of the clock. *)
Theorem C5_two_runs_agree_but_for_zone_and_timestamp (H1 H2 : Host)
    (events : list UFCEvent) (calName : jsstring) (w1 w2 : World)
    (i : nat) (e : UFCEvent) :
  events !! i = Some e →
  ∃ es1 es2 a b,
    mapM (λ e, @formatEventForCalendar H1 e calName) events w1
    = (Normal es1, after (length events) w1) ∧
    mapM (λ e, @formatEventForCalendar H2 e calName) events w2
    = (Normal es2, after (length events) w2) ∧
    length es1 = length events ∧ length es2 = length events ∧
    es1 !! i = Some a ∧ es2 !! i = Some b ∧
    EventAttributes.uid a = EventAttributes.uid b ∧
    EventAttributes.title a = EventAttributes.title b ∧
    EventAttributes.duration a = EventAttributes.duration b ∧
    EventAttributes.location a = EventAttributes.location b ∧
    EventAttributes.calName a = EventAttributes.calName b ∧
    EventAttributes.alarms a = EventAttributes.alarms b ∧
    ((∀ t, @LocalTZA H1 t = @LocalTZA H2 t) →
     EventAttributes.start a = EventAttributes.start b) ∧
    ((∀ ms, @hours_toString H1 ms = @hours_toString H2 ms) →
     ∃ body,
       EventAttributes.description a
       = body ++ LF ++ lit "Accurate as of " ++ @stamp H1 w1 i ∧
       EventAttributes.description b
       = body ++ LF ++ lit "Accurate as of " ++ @stamp H2 w2 i).
Proof.
  intros Hi.
  destruct (@mapM_formatEventForCalendar H1 calName events w1)
    as (es1 & Hrun1 & Hlen1 & Hes1).
  destruct (@mapM_formatEventForCalendar H2 calName events w2)
    as (es2 & Hrun2 & Hlen2 & Hes2).
  destruct (Hes1 i e Hi) as (a & Ha & Hfa).
  destruct (Hes2 i e Hi) as (b & Hb & Hfb).
  destruct (one_event_on_two_hosts H1 H2 _ _ _ _ _ _ _ _ Hfa Hfb)
    as (? & ? & ? & ? & ? & ? & Hstart & Hdesc).
  exists es1, es2, a, b. split_and!; try done.
  intros Hprint. destruct (Hdesc Hprint) as (body & Hda & Hdb).
  rewrite (@stamp_after H1) in Hda. rewrite (@stamp_after H2) in Hdb.
  by exists body.
Qed.

(** * The properties on the sample data *)

Lemma C2_suffix_on_prelims_header_witness :
  ∃ a, @formatEventForCalendar demo_host fight_night (lit "UFC") demo_world
       = (Normal a, tick demo_world) ∧
       includes (EventAttributes.description a)
         (LF ++ (lit "Prelims" ++ lit " (" ++ lit "2" ++ hrs_before_Main)
             ++ LF ++ dashes ++ LF).
Proof.
  destruct (@C2_suffix_on_prelims_header demo_host fight_night (lit "UFC")
              demo_world) as (a & Hrun & Hsuffix & _).
  exists a. split; [exact Hrun |].
  apply (Hsuffix 7200000%Z).
  - discriminate.
  - exists (lit "1700592800"), 1700592800%Z, 1700600000%Z.
    unfold seconds_in_range. repeat split; try reflexivity; lia.
Defined.

(** The sentence of C2 fails on the code in both directions.  With a
    start time and no prelims listed there is no header to carry the
    suffix, and a date beyond the range of dates is an invalid date, so
    no difference is computed; without a start time for the prelims the
    text can still come from the [Early Prelims] header. *)
Lemma C2_counterexample :
  ¬ @suffix_follows_prelimsTime demo_host no_prelims_listed (lit "UFC")
      demo_world ∧
  ¬ @suffix_follows_prelimsTime demo_host date_out_of_range (lit "UFC")
      demo_world ∧
  ¬ @suffix_follows_prelimsTime demo_host early_time_only (lit "UFC")
      demo_world.
Proof.
  split; [| split]; intros Hclaim.
  - destruct (Hclaim _ _ eq_refl) as [Hpresent _].
    apply fixed_line_without_suffix in Hpresent; [done | by vm_compute |].
    exists (lit "1699992800"), 1699992800%Z, 1700000000%Z.
    repeat split; try reflexivity; lia.
  - destruct (Hclaim _ _ eq_refl) as [Hpresent _].
    apply fixed_line_without_suffix in Hpresent; [done | by vm_compute |].
    exists (lit "1700000000"), 1700000000%Z, 99999999999999%Z.
    repeat split; try reflexivity; lia.
  - destruct (Hclaim _ _ eq_refl) as [_ Habsent].
    apply Habsent; [by left |].
    apply includesb_spec. by vm_compute.
Qed.

Lemma C3_fight_card_comes_first_witness :
  ∃ a rest,
    @formatEventForCalendar demo_host ufc300 (lit "UFC") demo_world
    = (Normal a, tick demo_world) ∧
    EventAttributes.description a = lit "A vs B" ++ LF ++ rest.
Proof.
  destruct (@C3_fight_card_comes_first demo_host ufc300 (lit "UFC")
              demo_world) as (a & rest & Hrun & Hdesc & _).
  - discriminate.
  - exists a, rest. split; [exact Hrun | exact Hdesc].
Defined.

Lemma C5_two_runs_agree_but_for_zone_and_timestamp_witness :
  ∃ es1 es2 a b,
    es1 !! 1 = Some a ∧ es2 !! 1 = Some b ∧
    mapM (λ e, @formatEventForCalendar demo_host e (lit "UFC"))
      [ufc300; fight_night] demo_world
    = (Normal es1, after 2 demo_world) ∧
    mapM (λ e, @formatEventForCalendar demo_host e (lit "UFC"))
      [ufc300; fight_night] later_world
    = (Normal es2, after 2 later_world) ∧
    EventAttributes.start a = EventAttributes.start b ∧
    EventAttributes.uid a = EventAttributes.uid b.
Proof.
  destruct (C5_two_runs_agree_but_for_zone_and_timestamp demo_host demo_host
              [ufc300; fight_night] (lit "UFC") demo_world later_world
              1 fight_night eq_refl)
    as (es1 & es2 & a & b & Hrun1 & Hrun2 & _ & _ & Ha & Hb &
        Huid & _ & _ & _ & _ & _ & Hstart & _).
  exists es1, es2, a, b. split_and!; try assumption.
  apply Hstart. reflexivity.
Defined.

(** The sentence of C5 fails on the code when the two runs are in
    different time zones: the same event starts at 17:13 on a host five
    hours behind UTC and at 22:13 on a host at UTC. *)
Lemma C5_counterexample :
  ¬ reruns_agree demo_host utc_host [ufc300] (lit "UFC")
      demo_world demo_world.
Proof.
  intros Hclaim. specialize (Hclaim _ _ _ _ eq_refl eq_refl).
  apply Forall2_cons_1 in Hclaim as [(_ & _ & Hstart & _) _].
  vm_compute in Hstart. discriminate.
Qed.

Lemma C10_ppv_entry_differs_in_calName_only_witness :
  ∃ full ppv a b,
    full !! 1 = Some a ∧ ppv !! 0 = Some b ∧
    mapM (λ e, @formatEventForCalendar demo_host e (lit "UFC"))
      [fight_night; ufc300] demo_world
    = (Normal full, after 2 demo_world) ∧
    mapM (λ e, @formatEventForCalendar demo_host e (lit "UFC-PPV"))
      (ppvEvents [fight_night; ufc300]) (tick demo_world)
    = (Normal ppv, after 1 (tick demo_world)) ∧
    EventAttributes.description a = EventAttributes.description b ∧
    EventAttributes.calName a = lit "UFC" ∧
    EventAttributes.calName b = lit "UFC-PPV".
Proof.
  destruct (@C10_ppv_entry_differs_in_calName_only demo_host
              [fight_night; ufc300] demo_world (tick demo_world)
              1 0 ufc300 eq_refl eq_refl eq_refl)
    as (full & ppv & a & b & Hrun1 & Hrun2 & _ & Ha & Hb & _ & _ & _ &
        Hdesc & _ & _ & _ & Hca & Hcb).
  exists full, ppv, a, b. repeat split; assumption.
Defined.

Lemma C8_no_events_is_fatal_witness :
  ∃ w',
    @createICS (demo_host_with (Normal (Some [])) demo_serializer) demo_world
    = (Normal (), w') ∧
    exitCode w' = Some 1%Z ∧ files w' = ∅.
Proof.
  destruct (@C8_no_events_is_fatal
              (demo_host_with (Normal (Some [])) demo_serializer) demo_world)
    as (w' & Hrun & Hexit & Hfiles & _).
  - right. reflexivity.
  - exists w'. repeat split; assumption.
Defined.

Lemma C9_full_feed_error_aborts_the_run_witness :
  ∃ w',
    @createICS (demo_host_with (Normal (Some [ufc300])) failing_serializer)
      demo_world
    = (Normal (), w') ∧
    exitCode w' = Some 1%Z ∧ files w' = ∅.
Proof.
  destruct (@C9_full_feed_error_aborts_the_run
              (demo_host_with (Normal (Some [ufc300])) failing_serializer)
              demo_world [ufc300] (Error (lit "start is a required field")))
    as (w' & Hrun & Hexit & Hfiles & _).
  - reflexivity.
  - discriminate.
  - reflexivity.
  - exists w'. repeat split; assumption.
Defined.

(** The end-to-end example: one fight, no other section. *)
Example ufc300_entry :
  ∃ a,
    returned (@formatEventForCalendar demo_host ufc300 (lit "UFC") demo_world)
    = Some a ∧
    EventAttributes.start a
    = [Some 2023%Z; Some 11%Z; Some 14%Z; Some 17%Z; Some 13%Z] ∧
    EventAttributes.description a
    = lit "A vs B" ++ LF ++ LF ++ lit "https://example.com/e1" ++ LF ++ LF
        ++ lit "Accurate as of t=1699990000000" ∧
    includesb (EventAttributes.description a) (lit "Main Card") = false ∧
    includesb (EventAttributes.description a) (lit "Prelims") = false ∧
    EventAttributes.uid a = lit "https://example.com/e1".
Proof. eexists. split; [reflexivity |]. by vm_compute. Qed.

(** An event with every section: whole and half hours before the main
    card. *)
Example fight_night_description :
  ∃ a,
    returned (@formatEventForCalendar demo_host fight_night (lit "UFC")
                demo_world) = Some a ∧
    EventAttributes.description a
    = unlines
        [ lit "X vs Y"; lit "P vs Q";
          lit "Main Card"; dashes; lit "X vs Y";
          []; lit "Prelims (2 hrs before Main)"; dashes; lit "P vs Q";
          []; lit "Early Prelims (3.5 hrs before Main)"; dashes;
          lit "R vs S";
          []; lit "https://example.com/e2"; [] ]
        ++ lit "Accurate as of t=1699990000000".
Proof. eexists. split; [reflexivity |]. by vm_compute. Qed.

(** A run that succeeds: both files are written, the numbered event
    alone is in the PPV feed, and the exit code is left alone. *)
Example demo_run :
  let w' := (@createICS demo_host demo_world).2 in
  exitCode w' = None ∧
  ticks w' = 3 ∧
  files w' !! lit "/work/UFC.ics"
  = Some (unlines [lit "BEGIN:VCALENDAR"; lit "UFC 300";
                   lit "UFC Fight Night: X vs Y"] ++ lit "END:VCALENDAR") ∧
  files w' !! lit "/work/UFC-PPV.ics"
  = Some (unlines [lit "BEGIN:VCALENDAR"; lit "UFC 300"]
            ++ lit "END:VCALENDAR") ∧
  length (trace w') = 12.
Proof. by vm_compute. Qed.

(** A date that is not a number gives an entry whose start is NaN in
    every component. *)
Example start_of_a_date_that_is_not_a_number :
  ∃ a,
    returned (@formatEventForCalendar demo_host
                {| UFCEvent.name := lit "UFC 304";
                   UFCEvent.date := lit "TBD";
                   UFCEvent.location := [];
                   UFCEvent.url := {| href := lit "https://example.com/e6" |};
                   UFCEvent.fightCard := [];
                   UFCEvent.mainCard := [];
                   UFCEvent.prelims := [];
                   UFCEvent.earlyPrelims := [];
                   UFCEvent.prelimsTime := None;
                   UFCEvent.earlyPrelimsTime := None |}
                (lit "UFC") demo_world) = Some a ∧
    EventAttributes.start a = [NaN; NaN; NaN; NaN; NaN] ∧
    EventAttributes.uid a = lit "https://example.com/e6".
Proof. eexists. split; [reflexivity |]. by vm_compute. Qed.

(** * More properties on the sample data *)

Lemma createICS_writes_both_feeds_witness :
  ∃ w',
    @createICS demo_host demo_world = (Normal (), w') ∧
    exitCode w' = None ∧ ticks w' = 3.
Proof.
  edestruct (@createICS_writes_both_feeds demo_host demo_world
               [ufc300; fight_night])
    as (w' & Hrun & Hexit & _ & Hticks & _).
  - reflexivity.
  - discriminate.
  - reflexivity.
  - reflexivity.
  - reflexivity.
  - reflexivity.
  - exists w'. split; [exact Hrun |]. split; [exact Hexit | exact Hticks].
Defined.

Lemma createICS_scraper_rejects_witness :
  ∃ w',
    @createICS
      (demo_host_with (Throw (Error (lit "fetch failed"))) demo_serializer)
      demo_world = (Normal (), w') ∧
    exitCode w' = Some 1%Z ∧ files w' = ∅.
Proof.
  destruct (@createICS_scraper_rejects
              (demo_host_with (Throw (Error (lit "fetch failed")))
                 demo_serializer)
              demo_world (Error (lit "fetch failed")) eq_refl)
    as (w' & Hrun & Hexit & Hfiles & _).
  exists w'. split; [exact Hrun |]. split; [exact Hexit | exact Hfiles].
Defined.

Lemma createICS_first_write_fails_witness :
  ∃ w',
    @createICS
      (demo_host_refusing (Normal (Some [ufc300])) demo_serializer
         (λ _, Some (Error (lit "EACCES"))))
      demo_world = (Normal (), w') ∧
    exitCode w' = Some 1%Z ∧ files w' = ∅.
Proof.
  edestruct (@createICS_first_write_fails
               (demo_host_refusing (Normal (Some [ufc300])) demo_serializer
                  (λ _, Some (Error (lit "EACCES"))))
               demo_world [ufc300])
    as (w' & Hrun & Hexit & Hfiles & _).
  - reflexivity.
  - discriminate.
  - reflexivity.
  - reflexivity.
  - exists w'. split; [exact Hrun |]. split; [exact Hexit | exact Hfiles].
Defined.

Lemma createICS_ppv_failure_keeps_full_feed_witness :
  ∃ w' allVal,
    @createICS
      (demo_host_with (Normal (Some [ufc300])) full_feed_only_serializer)
      demo_world = (Normal (), w') ∧
    exitCode w' = Some 1%Z ∧
    files w' = <[lit "/work/UFC.ics" := allVal]> ∅.
Proof.
  edestruct (@createICS_ppv_failure_keeps_full_feed
               (demo_host_with (Normal (Some [ufc300]))
                  full_feed_only_serializer)
               demo_world [ufc300])
    as (w' & Hrun & Hexit & Hfiles & _).
  - reflexivity.
  - discriminate.
  - reflexivity.
  - reflexivity.
  - left. reflexivity.
  - exists w'. eexists. split; [exact Hrun |].
    split; [exact Hexit | exact Hfiles].
Defined.

Lemma early_prelims_header_suffix_witness :
  ∃ a,
    @formatEventForCalendar demo_host early_prelims_listed (lit "UFC")
      demo_world = (Normal a, tick demo_world) ∧
    includes (EventAttributes.description a)
      (LF ++ (lit "Early Prelims" ++ lit " (" ++ lit "3" ++ hrs_before_Main)
          ++ LF ++ dashes ++ LF).
Proof.
  destruct (@early_prelims_header_suffix demo_host early_prelims_listed
              (lit "UFC") demo_world) as (a & Hrun & Hsuffix & _).
  - discriminate.
  - exists a. split; [exact Hrun |].
    apply (Hsuffix 10800000%Z).
    exists (lit "1699989200"), 1699989200%Z, 1700000000%Z.
    unfold seconds_in_range. repeat split; try reflexivity; lia.
Defined.

Lemma start_is_the_local_minute_witness :
  ∃ a,
    @formatEventForCalendar demo_host ufc300 (lit "UFC") demo_world
    = (Normal a, tick demo_world) ∧
    EventAttributes.start a
    = [Some 2023%Z; Some 11%Z; Some 14%Z; Some 17%Z; Some 13%Z].
Proof.
  destruct (@start_is_the_local_minute demo_host ufc300 (lit "UFC")
              demo_world 1700000000%Z)
    as (a & y & m & d & h & mi & Hrun & Hstart & _).
  - reflexivity.
  - unfold seconds_in_range. lia.
  - exists a. split; [exact Hrun |].
    injection Hrun as <-. reflexivity.
Defined.

Lemma start_of_an_invalid_date_witness :
  ∃ a,
    @formatEventForCalendar demo_host date_to_be_announced (lit "UFC")
      demo_world = (Normal a, tick demo_world) ∧
    EventAttributes.start a = [NaN; NaN; NaN; NaN; NaN].
Proof.
  destruct (@start_of_an_invalid_date demo_host date_to_be_announced
              (lit "UFC") demo_world) as (a & Hrun & Hstart & _).
  - left. reflexivity.
  - exists a. split; [exact Hrun | exact Hstart].
Defined.

Lemma ppv_pattern_is_not_anchored_witness :
  RegExp.test ppv_pattern (lit "Watch UFC 300: A vs B") = true.
Proof.
  destruct (ppv_pattern_is_not_anchored (lit "UFC 300")) as (Hany & _).
  - reflexivity.
  - exact (Hany (lit "Watch ") (lit ": A vs B")).
Defined.
